(** * Pet Store API: the request handlers of [app/main.py] over the
    in-memory collections [pets_db], [orders_db] and [users_db].

    The models of [app/models.py] and the projections of [app/schemas.py]
    are records, the three module-level lists are the fields of [Store],
    and every handler is a function from the store to an outcome and the
    store it leaves behind. *)

From Stdlib Require Import ZArith Ascii String List Floats.SpecFloat.
From stdpp Require Import base option list sorting strings pretty gmap fin_maps.

Local Open Scope string_scope.
Local Open Scope list_scope.
Local Open Scope Z_scope.

(** ** Values *)

(** A [datetime] is the reading of [datetime.utcnow()], in microseconds. *)
Definition datetime : Type := Z.

(** A Python [float] is an IEEE-754 binary64 value. *)
Definition float : Type := spec_float.

Module PetStatus.
Inductive t := AVAILABLE | PENDING | SOLD.
Definition value (s : t) : string :=
  match s with
  | AVAILABLE => "available"
  | PENDING => "pending"
  | SOLD => "sold"
  end.
(** [PetStatus] mixes in [str]: members compare as their values do. *)
Definition eqb (a b : t) : bool := String.eqb (value a) (value b).
(** Truth value of a member in [if status:], that of its string. *)
Definition truthy (s : t) : bool := negb (String.eqb (value s) "").
End PetStatus.

Module OrderStatus.
Inductive t := PLACED | APPROVED | DELIVERED | CANCELLED.
Definition value (s : t) : string :=
  match s with
  | PLACED => "placed"
  | APPROVED => "approved"
  | DELIVERED => "delivered"
  | CANCELLED => "cancelled"
  end.
Definition eqb (a b : t) : bool := String.eqb (value a) (value b).
Definition truthy (s : t) : bool := negb (String.eqb (value s) "").
End OrderStatus.

Module PetCategory.
Inductive t := DOG | CAT | BIRD | FISH | REPTILE | OTHER.
Definition value (c : t) : string :=
  match c with
  | DOG => "dog"
  | CAT => "cat"
  | BIRD => "bird"
  | FISH => "fish"
  | REPTILE => "reptile"
  | OTHER => "other"
  end.
Definition eqb (a b : t) : bool := String.eqb (value a) (value b).
Definition truthy (c : t) : bool := negb (String.eqb (value c) "").
End PetCategory.

(** ** [EmailStr] *)

(** The value an [EmailStr] field holds for the address a body gives.
    For an address of the plain form local@domain, the validation of the
    field keeps the local part and puts the domain in lower case; this is
    what [normalize] does, at the last [@].  [UserCreate.email] and
    [User.email] are declared [EmailStr]: a request body carries the
    address as sent, and the object [create_user] receives carries
    [normalize] of it. *)
Module EmailStr.
Definition lower (c : Ascii.ascii) : Ascii.ascii :=
  let n := Ascii.nat_of_ascii c in
  if (65 <=? n)%nat && (n <=? 90)%nat then Ascii.ascii_of_nat (n + 32) else c.

Fixpoint lower_all (x : string) : string :=
  match x with
  | EmptyString => EmptyString
  | String c x' => String (lower c) (lower_all x')
  end.

Fixpoint has_at (x : string) : bool :=
  match x with
  | EmptyString => false
  | String c x' => Ascii.eqb c "@"%char || has_at x'
  end.

Fixpoint normalize (x : string) : string :=
  match x with
  | EmptyString => EmptyString
  | String c x' =>
    if Ascii.eqb c "@"%char && negb (has_at x')
    then String c (lower_all x')
    else String c (normalize x')
  end.
End EmailStr.

(** ** Models ([app/models.py]) *)

(** A stored [Pet].  [update_pet] builds the stored object with
    [copy(update=...)], which does not validate, so an attribute whose
    annotation is not [Optional] holds [None] once an update has set it
    to null: the updatable attributes are options, and [Pet.conforms]
    says that the object is as the class annotates it. *)
Module Pet.
Record t := mk {
  id : Z;
  name : option string;
  category : option PetCategory.t;
  status : option PetStatus.t;
  tags : option (list string);
  price : option float;
  description : option string;
  photo_urls : option (list string);
  created_at : datetime;
  updated_at : option datetime
}.

Definition conforms (p : t) : bool :=
  bool_decide (is_Some (name p)) && bool_decide (is_Some (category p))
  && bool_decide (is_Some (status p)) && bool_decide (is_Some (tags p))
  && bool_decide (is_Some (price p)) && bool_decide (is_Some (photo_urls p)).
End Pet.

Module PetCreate.
Record t := mk {
  name : string;
  category : PetCategory.t;
  status : PetStatus.t;
  tags : list string;
  price : float;
  description : option string;
  photo_urls : list string
}.
End PetCreate.

(** A field of an update payload: left out of the request body ([unset]),
    or given in it, as null ([provided None]) or as a value.  This is what
    [dict(exclude_unset=True)] tells apart. *)
Inductive Field (A : Type) : Type :=
| unset
| provided (v : option A).
Arguments unset {A}.
Arguments provided {A} v.

(** [copy(update=...)] on one attribute. *)
Definition merge {A : Type} (old : option A) (f : Field A) : option A :=
  match f with
  | unset => old
  | provided v => v
  end.

Module PetUpdate.
Record t := mk {
  name : Field string;
  category : Field PetCategory.t;
  status : Field PetStatus.t;
  tags : Field (list string);
  price : Field float;
  description : Field string;
  photo_urls : Field (list string)
}.
End PetUpdate.

Module Order.
Record t := mk {
  id : Z;
  pet_id : Z;
  user_id : Z;
  quantity : Z;
  ship_date : option datetime;
  status : OrderStatus.t;
  complete : bool;
  created_at : datetime;
  updated_at : option datetime
}.
End Order.

Module OrderCreate.
Record t := mk {
  pet_id : Z;
  user_id : Z;
  quantity : Z;
  ship_date : option datetime;
  status : OrderStatus.t;
  complete : bool
}.
End OrderCreate.

Module User.
Record t := mk {
  id : Z;
  username : string;
  first_name : string;
  last_name : string;
  email : string;
  phone : option string;
  password : string;
  user_status : Z;
  created_at : datetime;
  updated_at : option datetime
}.
End User.

Module UserCreate.
Record t := mk {
  username : string;
  first_name : string;
  last_name : string;
  email : string;
  phone : option string;
  password : string;
  user_status : Z
}.
End UserCreate.

(** ** Response schemas ([app/schemas.py]) *)

Module PetResponse.
Record t := mk {
  id : Z;
  name : string;
  category : PetCategory.t;
  status : PetStatus.t;
  tags : list string;
  price : float;
  description : option string;
  photo_urls : list string;
  created_at : datetime;
  updated_at : option datetime
}.
End PetResponse.

Module OrderResponse.
Record t := mk {
  id : Z;
  pet_id : Z;
  user_id : Z;
  quantity : Z;
  ship_date : option datetime;
  status : OrderStatus.t;
  complete : bool;
  created_at : datetime;
  updated_at : option datetime
}.
End OrderResponse.

Module UserResponse.
Record t := mk {
  id : Z;
  username : string;
  first_name : string;
  last_name : string;
  email : string;
  phone : option string;
  user_status : Z;
  created_at : datetime;
  updated_at : option datetime
}.
End UserResponse.

Module HealthResponse.
Record t := mk {
  message : string;
  status : string;
  version : string;
  timestamp : datetime
}.
End HealthResponse.

Module ApiResponse.
Record t := mk {
  code : Z;
  type : string;
  message : string;
  timestamp : datetime
}.
End ApiResponse.

(** ** Outcomes and the store *)

(** What a request can end in.  An [HTTPException] is answered with its
    own status code, a [RequestValidationError] (a query parameter outside
    its [ge]/[le] bounds) with 422; the others are caught nowhere and are
    answered 500: [ValidationError], [AttributeError] and [KeyError] inside
    a handler, [ValueError] when the returned response is rendered as JSON
    (a float that is infinite or not a number). *)
Inductive Exception :=
| HTTPException (status_code : Z) (detail : string)
| RequestValidationError
| ValidationError
| AttributeError
| KeyError
| ValueError.

Inductive Outcome (A : Type) : Type :=
| Return (x : A)
| Raise (e : Exception).
Arguments Return {A} x.
Arguments Raise {A} e.

(** The in-memory storage: the three module-level lists. *)
Record Store := mkStore {
  pets_db : list Pet.t;
  orders_db : list Order.t;
  users_db : list User.t
}.

(** A handler applied to its arguments: outcome and store left behind. *)
Definition Handler (A : Type) : Type := Store -> Outcome A * Store.

(** ** Python built-ins used by the handlers *)

(** [max(l, default=d)]. *)
Definition py_max (l : list Z) (default : Z) : Z :=
  match l with
  | [] => default
  | x :: xs => fold_left Z.max xs x
  end.

(** A slice bound brought into [0..len], a negative one counted from the
    end. *)
Definition slice_bound (len i : Z) : Z :=
  if i <? 0 then Z.max (i + len) 0 else Z.min i len.

(** [l[start:stop]]. *)
Definition py_slice {A : Type} (l : list A) (start stop : Z) : list A :=
  let len := Z.of_nat (length l) in
  let lo := slice_bound len start in
  let hi := slice_bound len stop in
  take (Z.to_nat (hi - lo)) (drop (Z.to_nat lo) l).

(** Truth value of an [Optional] enum argument. *)
Definition given {A : Type} (truthy : A -> bool) (o : option A) : bool :=
  match o with
  | Some x => truthy x
  | None => false
  end.

(** [attr == x] for an attribute that may hold [None]. *)
Definition attr_eqb {A : Type} (eqb : A -> A -> bool) (attr : option A) (x : A) : bool :=
  match attr with
  | Some y => eqb y x
  | None => false
  end.

(** ** Projections: a response schema built from the [dict()] of a record *)

(** [PetResponse] requires every attribute but [description] and
    [updated_at]: [None] in one of them is a [ValidationError]. *)
Definition PetResponse_of (pet : Pet.t) : option PetResponse.t :=
  name ← Pet.name pet;
  category ← Pet.category pet;
  status ← Pet.status pet;
  tags ← Pet.tags pet;
  price ← Pet.price pet;
  photo_urls ← Pet.photo_urls pet;
  Some (PetResponse.mk (Pet.id pet) name category status tags price
          (Pet.description pet) photo_urls (Pet.created_at pet) (Pet.updated_at pet)).

Definition OrderResponse_of (order : Order.t) : OrderResponse.t :=
  OrderResponse.mk (Order.id order) (Order.pet_id order) (Order.user_id order)
    (Order.quantity order) (Order.ship_date order) (Order.status order)
    (Order.complete order) (Order.created_at order) (Order.updated_at order).

Definition UserResponse_of (user : User.t) : UserResponse.t :=
  UserResponse.mk (User.id user) (User.username user) (User.first_name user)
    (User.last_name user) (User.email user) (User.phone user)
    (User.user_status user) (User.created_at user) (User.updated_at user).

Definition respond {A B : Type} (r : option A) (f : A -> B) (s : Store) : Outcome B * Store :=
  match r with
  | Some x => (Return (f x), s)
  | None => (Raise ValidationError, s)
  end.

(** ** Sample data *)

Definition f299_99 : float := S754_finite false 5277479891464356 (-44).
Definition f199_99 : float := S754_finite false 7036522574045512 (-45).
Definition f89_99 : float := S754_finite false 6332483288547983 (-46).

(** [clock k] is the reading of [datetime.utcnow()] when the [k]-th sample
    record is built. *)
Definition initialize_sample_data (clock : nat -> datetime) (s : Store) : Store :=
  let pets :=
    match pets_db s with
    | [] =>
      [ Pet.mk 1 (Some "Buddy") (Some PetCategory.DOG) (Some PetStatus.AVAILABLE)
          (Some ["friendly"; "house-trained"]) (Some f299_99)
          (Some "A friendly golden retriever")
          (Some ["https://example.com/buddy1.jpg"]) (clock 0%nat) None;
        Pet.mk 2 (Some "Whiskers") (Some PetCategory.CAT) (Some PetStatus.AVAILABLE)
          (Some ["playful"; "indoor"]) (Some f199_99)
          (Some "A playful orange tabby cat")
          (Some ["https://example.com/whiskers1.jpg"]) (clock 1%nat) None;
        Pet.mk 3 (Some "Tweety") (Some PetCategory.BIRD) (Some PetStatus.SOLD)
          (Some ["colorful"; "singing"]) (Some f89_99)
          (Some "A beautiful canary")
          (Some ["https://example.com/tweety1.jpg"]) (clock 2%nat) None ]
    | _ :: _ => pets_db s
    end in
  let users :=
    match users_db s with
    | [] =>
      [ User.mk 1 "johndoe" "John" "Doe" "john@example.com" (Some "+1234567890")
          "password123" 1 (clock 3%nat) None;
        User.mk 2 "janedoe" "Jane" "Doe" "jane@example.com" (Some "+1234567891")
          "password123" 1 (clock 4%nat) None ]
    | _ :: _ => users_db s
    end in
  mkStore pets (orders_db s) users.

(** The store once the module is loaded. *)
Definition initial_store (clock : nat -> datetime) : Store :=
  initialize_sample_data clock (mkStore [] [] []).

(** ** Health *)

Definition root (now : datetime) : Handler HealthResponse.t := fun s =>
  (Return (HealthResponse.mk "Pet Store API is running!" "healthy" "1.0.0" now), s).

Definition health_check (now : datetime) : Handler HealthResponse.t := fun s =>
  (Return (HealthResponse.mk "Service is healthy" "healthy" "1.0.0" now), s).

(** The bounds of [limit] and [offset] declared with [Query]. *)
Definition page_ok (limit offset : Z) : bool :=
  (1 <=? limit) && (limit <=? 100) && (0 <=? offset).

(** ** Pets *)

Definition get_pets (status : option PetStatus.t) (category : option PetCategory.t)
    (limit offset : Z) : Handler (list PetResponse.t) := fun s =>
  if negb (page_ok limit offset) then (Raise RequestValidationError, s) else
  let filtered_pets := pets_db s in
  let filtered_pets :=
    match status with
    | Some status' =>
      if PetStatus.truthy status'
      then List.filter (fun pet => attr_eqb PetStatus.eqb (Pet.status pet) status') filtered_pets
      else filtered_pets
    | None => filtered_pets
    end in
  let filtered_pets :=
    match category with
    | Some category' =>
      if PetCategory.truthy category'
      then List.filter (fun pet => attr_eqb PetCategory.eqb (Pet.category pet) category') filtered_pets
      else filtered_pets
    | None => filtered_pets
    end in
  let start := offset in
  let end_ := offset + limit in
  let paginated_pets := py_slice filtered_pets start end_ in
  respond (mapM PetResponse_of paginated_pets) (fun rs => rs) s.

(** The loop [for i, pet in enumerate(pets_db): if pet.id == pet_id: ...]
    acts on the first match: [list_find] gives its index and record. *)
Definition get_pet (pet_id : Z) : Handler PetResponse.t := fun s =>
  match list_find (fun pet => Pet.id pet = pet_id) (pets_db s) with
  | Some (_, pet) => respond (PetResponse_of pet) (fun r => r) s
  | None => (Raise (HTTPException 404 "Pet not found"), s)
  end.

Definition create_pet (pet : PetCreate.t) (now : datetime) : Handler PetResponse.t := fun s =>
  let new_id := py_max (Pet.id <$> pets_db s) 0 + 1 in
  let new_pet :=
    Pet.mk new_id (Some (PetCreate.name pet)) (Some (PetCreate.category pet))
      (Some (PetCreate.status pet)) (Some (PetCreate.tags pet))
      (Some (PetCreate.price pet)) (PetCreate.description pet)
      (Some (PetCreate.photo_urls pet)) now None in
  let s' := mkStore (pets_db s ++ [new_pet]) (orders_db s) (users_db s) in
  respond (PetResponse_of new_pet) (fun r => r) s'.

(** [pet.copy(update=pet_update.dict(exclude_unset=True))]. *)
Definition Pet_copy (pet : Pet.t) (u : PetUpdate.t) : Pet.t :=
  Pet.mk (Pet.id pet)
    (merge (Pet.name pet) (PetUpdate.name u))
    (merge (Pet.category pet) (PetUpdate.category u))
    (merge (Pet.status pet) (PetUpdate.status u))
    (merge (Pet.tags pet) (PetUpdate.tags u))
    (merge (Pet.price pet) (PetUpdate.price u))
    (merge (Pet.description pet) (PetUpdate.description u))
    (merge (Pet.photo_urls pet) (PetUpdate.photo_urls u))
    (Pet.created_at pet) (Pet.updated_at pet).

Definition set_updated_at (pet : Pet.t) (t : datetime) : Pet.t :=
  Pet.mk (Pet.id pet) (Pet.name pet) (Pet.category pet) (Pet.status pet)
    (Pet.tags pet) (Pet.price pet) (Pet.description pet) (Pet.photo_urls pet)
    (Pet.created_at pet) (Some t).

(** The body is declared [pet_update: PetUpdate = None]: a request without
    one leaves [None], and [None.dict] raises once the pet is found. *)
Definition update_pet (pet_id : Z) (pet_update : option PetUpdate.t) (now : datetime)
    : Handler PetResponse.t := fun s =>
  match list_find (fun pet => Pet.id pet = pet_id) (pets_db s) with
  | Some (i, pet) =>
    match pet_update with
    | None => (Raise AttributeError, s)
    | Some u =>
      let updated_pet := Pet_copy pet u in
      let updated_pet := set_updated_at updated_pet now in
      let s' := mkStore (<[i := updated_pet]> (pets_db s)) (orders_db s) (users_db s) in
      respond (PetResponse_of updated_pet) (fun r => r) s'
    end
  | None => (Raise (HTTPException 404 "Pet not found"), s)
  end.

Definition delete_pet (pet_id : Z) (now : datetime) : Handler ApiResponse.t := fun s =>
  match list_find (fun pet => Pet.id pet = pet_id) (pets_db s) with
  | Some (i, _) =>
    (Return (ApiResponse.mk 200 "success"
               ("Pet " +:+ pretty pet_id +:+ " deleted successfully") now),
     mkStore (delete i (pets_db s)) (orders_db s) (users_db s))
  | None => (Raise (HTTPException 404 "Pet not found"), s)
  end.

(** ** Orders *)

Definition get_orders (status : option OrderStatus.t) (limit offset : Z)
    : Handler (list OrderResponse.t) := fun s =>
  if negb (page_ok limit offset) then (Raise RequestValidationError, s) else
  let filtered_orders := orders_db s in
  let filtered_orders :=
    match status with
    | Some status' =>
      if OrderStatus.truthy status'
      then List.filter (fun order => OrderStatus.eqb (Order.status order) status') filtered_orders
      else filtered_orders
    | None => filtered_orders
    end in
  let start := offset in
  let end_ := offset + limit in
  let paginated_orders := py_slice filtered_orders start end_ in
  (Return (OrderResponse_of <$> paginated_orders), s).

Definition get_order (order_id : Z) : Handler OrderResponse.t := fun s =>
  match list_find (fun order => Order.id order = order_id) (orders_db s) with
  | Some (_, order) => (Return (OrderResponse_of order), s)
  | None => (Raise (HTTPException 404 "Order not found"), s)
  end.

Definition create_order (order : OrderCreate.t) (now : datetime) : Handler OrderResponse.t := fun s =>
  let pet_exists := existsb (fun pet => Pet.id pet =? OrderCreate.pet_id order) (pets_db s) in
  if negb pet_exists then (Raise (HTTPException 400 "Pet not found"), s) else
  let user_exists := existsb (fun user => User.id user =? OrderCreate.user_id order) (users_db s) in
  if negb user_exists then (Raise (HTTPException 400 "User not found"), s) else
  let new_id := py_max (Order.id <$> orders_db s) 0 + 1 in
  let new_order :=
    Order.mk new_id (OrderCreate.pet_id order) (OrderCreate.user_id order)
      (OrderCreate.quantity order) (OrderCreate.ship_date order)
      (OrderCreate.status order) (OrderCreate.complete order) now None in
  (Return (OrderResponse_of new_order),
   mkStore (pets_db s) (orders_db s ++ [new_order]) (users_db s)).

Definition delete_order (order_id : Z) (now : datetime) : Handler ApiResponse.t := fun s =>
  match list_find (fun order => Order.id order = order_id) (orders_db s) with
  | Some (i, _) =>
    (Return (ApiResponse.mk 200 "success"
               ("Order " +:+ pretty order_id +:+ " deleted successfully") now),
     mkStore (pets_db s) (delete i (orders_db s)) (users_db s))
  | None => (Raise (HTTPException 404 "Order not found"), s)
  end.

(** ** Users *)

Definition get_users (limit offset : Z) : Handler (list UserResponse.t) := fun s =>
  if negb (page_ok limit offset) then (Raise RequestValidationError, s) else
  let start := offset in
  let end_ := offset + limit in
  let paginated_users := py_slice (users_db s) start end_ in
  (Return (UserResponse_of <$> paginated_users), s).

Definition get_user (user_id : Z) : Handler UserResponse.t := fun s =>
  match list_find (fun user => User.id user = user_id) (users_db s) with
  | Some (_, user) => (Return (UserResponse_of user), s)
  | None => (Raise (HTTPException 404 "User not found"), s)
  end.

Definition create_user (user : UserCreate.t) (now : datetime) : Handler UserResponse.t := fun s =>
  if existsb (fun u => String.eqb (User.username u) (UserCreate.username user)) (users_db s)
  then (Raise (HTTPException 400 "Username already exists"), s) else
  if existsb (fun u => String.eqb (User.email u) (UserCreate.email user)) (users_db s)
  then (Raise (HTTPException 400 "Email already exists"), s) else
  let new_id := py_max (User.id <$> users_db s) 0 + 1 in
  let new_user :=
    User.mk new_id (UserCreate.username user) (UserCreate.first_name user)
      (UserCreate.last_name user) (UserCreate.email user) (UserCreate.phone user)
      (UserCreate.password user) (UserCreate.user_status user) now None in
  (Return (UserResponse_of new_user),
   mkStore (pets_db s) (orders_db s) (users_db s ++ [new_user])).

Definition delete_user (user_id : Z) (now : datetime) : Handler ApiResponse.t := fun s =>
  match list_find (fun user => User.id user = user_id) (users_db s) with
  | Some (i, _) =>
    (Return (ApiResponse.mk 200 "success"
               ("User " +:+ pretty user_id +:+ " deleted successfully") now),
     mkStore (pets_db s) (orders_db s) (delete i (users_db s)))
  | None => (Raise (HTTPException 404 "User not found"), s)
  end.

(** ** Inventory *)

(** One turn of the loop of [get_inventory].  [pet.status.value] raises on
    a status that holds [None]; [inventory[status] += 1] reads the entry
    back before it stores it. *)
Definition tally (inventory : gmap string Z) (pet : Pet.t) : Outcome (gmap string Z) :=
  match Pet.status pet with
  | None => Raise AttributeError
  | Some st =>
    let status := PetStatus.value st in
    let inventory :=
      match inventory !! status with
      | None => <[status := 0]> inventory
      | Some _ => inventory
      end in
    match inventory !! status with
    | Some n => Return (<[status := n + 1]> inventory)
    | None => Raise KeyError
    end
  end.

Fixpoint tally_all (pets : list Pet.t) (inventory : gmap string Z) : Outcome (gmap string Z) :=
  match pets with
  | [] => Return inventory
  | pet :: pets' =>
    match tally inventory pet with
    | Return inventory' => tally_all pets' inventory'
    | Raise e => Raise e
    end
  end.

Definition get_inventory : Handler (gmap string Z) := fun s =>
  (tally_all (pets_db s) ∅, s).

(** ** The application: routes and runs *)

Inductive Request :=
| GET_root
| GET_health
| GET_pets (status : option PetStatus.t) (category : option PetCategory.t) (limit offset : Z)
| GET_pet (pet_id : Z)
| POST_pets (pet : PetCreate.t)
| PUT_pet (pet_id : Z) (pet_update : option PetUpdate.t)
| DELETE_pet (pet_id : Z)
| GET_orders (status : option OrderStatus.t) (limit offset : Z)
| GET_order (order_id : Z)
| POST_orders (order : OrderCreate.t)
| DELETE_order (order_id : Z)
| GET_users (limit offset : Z)
| GET_user (user_id : Z)
| POST_users (user : UserCreate.t)
| DELETE_user (user_id : Z)
| GET_inventory.

Inductive Body :=
| Health (r : HealthResponse.t)
| OnePet (r : PetResponse.t)
| Pets (rs : list PetResponse.t)
| OneOrder (r : OrderResponse.t)
| Orders (rs : list OrderResponse.t)
| OneUser (r : UserResponse.t)
| Users (rs : list UserResponse.t)
| Ack (r : ApiResponse.t)
| Inventory (m : gmap string Z).

Definition to_body {A : Type} (f : A -> Body) (r : Outcome A * Store) : Outcome Body * Store :=
  match r.1 with
  | Return x => (Return (f x), r.2)
  | Raise e => (Raise e, r.2)
  end.

(** The object [create_user] receives for a body: the body with its
    email as the [EmailStr] field holds it. *)
Definition UserCreate_of_body (body : UserCreate.t) : UserCreate.t :=
  UserCreate.mk (UserCreate.username body) (UserCreate.first_name body)
    (UserCreate.last_name body) (EmailStr.normalize (UserCreate.email body))
    (UserCreate.phone body) (UserCreate.password body) (UserCreate.user_status body).

(** The route table: the handler a request is given to, at clock
    reading [now].  A request carries its body as sent. *)
Definition route (now : datetime) (req : Request) : Handler Body := fun s =>
  match req with
  | GET_root => to_body Health (root now s)
  | GET_health => to_body Health (health_check now s)
  | GET_pets status category limit offset => to_body Pets (get_pets status category limit offset s)
  | GET_pet pet_id => to_body OnePet (get_pet pet_id s)
  | POST_pets pet => to_body OnePet (create_pet pet now s)
  | PUT_pet pet_id pet_update => to_body OnePet (update_pet pet_id pet_update now s)
  | DELETE_pet pet_id => to_body Ack (delete_pet pet_id now s)
  | GET_orders status limit offset => to_body Orders (get_orders status limit offset s)
  | GET_order order_id => to_body OneOrder (get_order order_id s)
  | POST_orders order => to_body OneOrder (create_order order now s)
  | DELETE_order order_id => to_body Ack (delete_order order_id now s)
  | GET_users limit offset => to_body Users (get_users limit offset s)
  | GET_user user_id => to_body OneUser (get_user user_id s)
  | POST_users user => to_body OneUser (create_user (UserCreate_of_body user) now s)
  | DELETE_user user_id => to_body Ack (delete_user user_id now s)
  | GET_inventory => to_body Inventory (get_inventory s)
  end.

(** A float that JSON can carry: neither infinite nor not-a-number. *)
Definition json_compliant (x : float) : bool :=
  match x with
  | S754_zero _ | S754_finite _ _ _ => true
  | S754_infinity _ | S754_nan => false
  end.

(** The returned body can be rendered as JSON: the only floats of a body
    are the prices of pet responses. *)
Definition renders (body : Body) : bool :=
  match body with
  | OnePet r => json_compliant (PetResponse.price r)
  | Pets rs => forallb (fun r => json_compliant (PetResponse.price r)) rs
  | _ => true
  end.

(** A request served: its handler runs, and what the handler returns is
    rendered.  A body that cannot be rendered ends the request in a
    [ValueError], after whatever the handler has written to the store. *)
Definition handle (now : datetime) (req : Request) : Handler Body := fun s =>
  let r := route now req s in
  match r.1 with
  | Return body => if renders body then r else (Raise ValueError, r.2)
  | Raise _ => r
  end.

(** The status code answered to a request, from the outcome of [handle]:
    the route's own when the body was returned and rendered
    ([status_code=status.HTTP_201_CREATED] on the three POST routes), the
    code of an [HTTPException], 422 for the paging bounds, 500 for every
    exception that is caught nowhere. *)
Definition status_code (req : Request) (o : Outcome Body) : Z :=
  match o with
  | Return _ =>
    match req with
    | POST_pets _ | POST_orders _ | POST_users _ => 201
    | _ => 200
    end
  | Raise (HTTPException code _) => code
  | Raise RequestValidationError => 422
  | Raise _ => 500
  end.

(** Requests are served one at a time, each at its clock reading; a run
    yields every outcome and the store after the last request. *)
Fixpoint run (s : Store) (reqs : list (datetime * Request)) : list (Request * Outcome Body) * Store :=
  match reqs with
  | [] => ([], s)
  | (now, req) :: reqs' =>
    let r := handle now req s in
    let rest := run r.2 reqs' in
    ((req, r.1) :: rest.1, rest.2)
  end.

(** A store is reachable when a run from the loaded module ends in it. *)
Definition reachable (s : Store) : Prop :=
  exists clock reqs, (run (initial_store clock) reqs).2 = s.

(** The ids handed out by the creations of a run, per collection, in the
    order of the requests. *)
Definition assigned_pet_id (r : Request * Outcome Body) : option Z :=
  match r with
  | (POST_pets _, Return (OnePet p)) => Some (PetResponse.id p)
  | _ => None
  end.

Definition assigned_order_id (r : Request * Outcome Body) : option Z :=
  match r with
  | (POST_orders _, Return (OneOrder o)) => Some (OrderResponse.id o)
  | _ => None
  end.

Definition assigned_user_id (r : Request * Outcome Body) : option Z :=
  match r with
  | (POST_users _, Return (OneUser u)) => Some (UserResponse.id u)
  | _ => None
  end.

Definition assigned_ids (pick : Request * Outcome Body -> option Z)
    (trace : list (Request * Outcome Body)) : list Z :=
  omap pick trace.

(** * Vocabulary of the properties *)

(** The id a creation hands out, as the specification words it: one more
    than the greatest id present, 1 when there is none. *)
Definition is_next_id (ids : list Z) (n : Z) : Prop :=
  (ids = [] -> n = 1) /\
  (ids <> [] -> n - 1 ∈ ids /\ forall x, x ∈ ids -> x <= n - 1).

(** The records the POST handlers build. *)
Definition new_pet_of (pet : PetCreate.t) (now : datetime) (s : Store) : Pet.t :=
  Pet.mk (py_max (Pet.id <$> pets_db s) 0 + 1)
    (Some (PetCreate.name pet)) (Some (PetCreate.category pet))
    (Some (PetCreate.status pet)) (Some (PetCreate.tags pet))
    (Some (PetCreate.price pet)) (PetCreate.description pet)
    (Some (PetCreate.photo_urls pet)) now None.

Definition new_order_of (order : OrderCreate.t) (now : datetime) (s : Store) : Order.t :=
  Order.mk (py_max (Order.id <$> orders_db s) 0 + 1)
    (OrderCreate.pet_id order) (OrderCreate.user_id order)
    (OrderCreate.quantity order) (OrderCreate.ship_date order)
    (OrderCreate.status order) (OrderCreate.complete order) now None.

Definition new_user_of (user : UserCreate.t) (now : datetime) (s : Store) : User.t :=
  User.mk (py_max (User.id <$> users_db s) 0 + 1)
    (UserCreate.username user) (UserCreate.first_name user)
    (UserCreate.last_name user) (UserCreate.email user) (UserCreate.phone user)
    (UserCreate.password user) (UserCreate.user_status user) now None.

(** Sample payloads, used where a statement is shown at a concrete input. *)
Definition rex : PetCreate.t :=
  PetCreate.mk "Rex" PetCategory.DOG PetStatus.PENDING ["loyal"] f89_99 None [].

Definition order_1_1 : OrderCreate.t :=
  OrderCreate.mk 1 1 2 None OrderStatus.PLACED false.

Definition newuser : UserCreate.t :=
  UserCreate.mk "newuser" "New" "User" "newuser@example.com" None "password123" 1.

Definition store0 : Store := initial_store (fun _ => 0).

Definition order_999_1 : OrderCreate.t :=
  OrderCreate.mk 999 1 1 None OrderStatus.PLACED false.

Definition order_999_999 : OrderCreate.t :=
  OrderCreate.mk 999 999 1 None OrderStatus.PLACED false.


Definition johndoe_again : UserCreate.t :=
  UserCreate.mk "johndoe" "John" "Doe" "john@example.com" None "password123" 1.

(** What an update payload field does to an attribute: left alone when
    the field is omitted, set to what the field carries otherwise. *)
Definition follows {A : Type} (f : Field A) (old new : option A) : Prop :=
  (f = unset -> new = old) /\ (forall v, f = provided v -> new = v).

(** An update whose body is [{"status": null}]. *)
Definition null_status : PetUpdate.t :=
  PetUpdate.mk unset unset (provided None) unset unset unset unset.

Definition rename_and_reprice : PetUpdate.t :=
  PetUpdate.mk (provided (Some "Buddy Updated")) unset unset unset
    (provided (Some f199_99)) unset unset.

(** A pet holds the status whose value is [k]. *)
Definition holds (k : string) (pet : Pet.t) : Prop :=
  PetStatus.value <$> Pet.status pet = Some k.

Global Instance holds_dec (k : string) (pet : Pet.t) : Decision (holds k pet).
Proof. unfold holds. apply _. Defined.

(** The sum of the values of an inventory. *)
Definition sum_values (m : gmap string Z) : Z :=
  map_fold (fun _ v acc => v + acc) 0 m.

(** The entry an inventory of [pets] has under [k]: none when no pet holds
    [k], the number of pets that hold it otherwise. *)
Definition tallied (k : string) (pets : list Pet.t) : option Z :=
  let n := length (filter (holds k) pets) in
  if decide (n = 0%nat) then None else Some (Z.of_nat n).

Definition tallies (m : gmap string Z) (pets : list Pet.t) : Prop :=
  (forall k, m !! k = tallied k pets) /\ sum_values m = Z.of_nat (length pets).

Global Instance PetStatus_eq_dec : EqDecision PetStatus.t.
Proof. solve_decision. Defined.

Global Instance PetCategory_eq_dec : EqDecision PetCategory.t.
Proof. solve_decision. Defined.



(** The id a DELETE request names, per collection. *)
Definition deleted_pet (req : Request) : option Z :=
  match req with DELETE_pet k => Some k | _ => None end.

Definition deleted_order (req : Request) : option Z :=
  match req with DELETE_order k => Some k | _ => None end.

Definition deleted_user (req : Request) : option Z :=
  match req with DELETE_user k => Some k | _ => None end.

(** The ids of every collection increase along the collection. *)
Definition ids_increase (s : Store) : Prop :=
  StronglySorted Z.lt (Pet.id <$> pets_db s)
  /\ StronglySorted Z.lt (Order.id <$> orders_db s)
  /\ StronglySorted Z.lt (User.id <$> users_db s).

(** One collection seen through the list of its ids, the id a response
    hands out and the id a DELETE names: a request that is answered with a
    new id appends that id, the next one; a DELETE leaves the ids alone or
    removes the one it names; any other request leaves them alone, or
    appends the next id without handing it out (a creation whose response
    is not rendered). *)
Definition acts_on_ids (ids : Store -> list Z)
    (assigned : Request * Outcome Body -> option Z)
    (deleted : Request -> option Z) : Prop :=
  forall (now : datetime) (req : Request) (s : Store),
    match assigned (req, (handle now req s).1) with
    | Some k => ids (handle now req s).2 = ids s ++ [k] /\ is_next_id (ids s) k
    | None =>
      match deleted req with
      | Some d =>
        ids (handle now req s).2 = ids s \/
        exists i, ids s !! i = Some d /\ ids (handle now req s).2 = delete i (ids s)
      | None =>
        ids (handle now req s).2 = ids s \/
        exists k, ids (handle now req s).2 = ids s ++ [k] /\ is_next_id (ids s) k
      end
    end.

(** ** Vocabulary of the further properties *)

Global Instance OrderStatus_eq_dec : EqDecision OrderStatus.t.
Proof. solve_decision. Defined.

(** An order passes the status filter when none is given or it is the
    order's status. *)
Definition order_passes (status : option OrderStatus.t) (order : Order.t) : bool :=
  match status with
  | Some st => bool_decide (Order.status order = st)
  | None => true
  end.

(** The paging bounds, as a proposition. *)
Definition paging_in_bounds (limit offset : Z) : Prop :=
  1 <= limit <= 100 /\ 0 <= offset.

(** The routes declared with [@app.get]. *)
Definition is_GET (req : Request) : bool :=
  match req with
  | GET_root | GET_health | GET_pets _ _ _ _ | GET_pet _ | GET_orders _ _ _
  | GET_order _ | GET_users _ _ | GET_user _ | GET_inventory => true
  | _ => false
  end.

(** The request names, in its path, an id that its collection lacks. *)
Definition names_missing_id (req : Request) (s : Store) : Prop :=
  match req with
  | GET_pet k | PUT_pet k _ | DELETE_pet k => k ∉ Pet.id <$> pets_db s
  | GET_order k | DELETE_order k => k ∉ Order.id <$> orders_db s
  | GET_user k | DELETE_user k => k ∉ User.id <$> users_db s
  | _ => False
  end.

(** A payload field given as null. *)
Definition is_null {A : Type} (f : Field A) : bool :=
  match f with
  | provided None => true
  | _ => false
  end.

(** The update payload gives null to an attribute that [PetResponse]
    requires. *)
Definition nulls_required (u : PetUpdate.t) : bool :=
  is_null (PetUpdate.name u) || is_null (PetUpdate.category u)
  || is_null (PetUpdate.status u) || is_null (PetUpdate.tags u)
  || is_null (PetUpdate.price u) || is_null (PetUpdate.photo_urls u).




(** The routes that write to each collection. *)
Definition writes_pets (req : Request) : bool :=
  match req with
  | POST_pets _ | PUT_pet _ _ | DELETE_pet _ => true
  | _ => false
  end.

Definition writes_orders (req : Request) : bool :=
  match req with
  | POST_orders _ | DELETE_order _ => true
  | _ => false
  end.

Definition writes_users (req : Request) : bool :=
  match req with
  | POST_users _ | DELETE_user _ => true
  | _ => false
  end.


(** No two users share a username, and no two share an email. *)
Definition credentials_unique (s : Store) : Prop :=
  NoDup (User.username <$> users_db s) /\ NoDup (User.email <$> users_db s).

(** Two payload fields sent one after the other: the later one where it
    is given, the earlier one otherwise. *)
Definition Field_then {A : Type} (f1 f2 : Field A) : Field A :=
  match f2 with
  | unset => f1
  | provided v => provided v
  end.

Definition PetUpdate_then (u1 u2 : PetUpdate.t) : PetUpdate.t :=
  PetUpdate.mk
    (Field_then (PetUpdate.name u1) (PetUpdate.name u2))
    (Field_then (PetUpdate.category u1) (PetUpdate.category u2))
    (Field_then (PetUpdate.status u1) (PetUpdate.status u2))
    (Field_then (PetUpdate.tags u1) (PetUpdate.tags u2))
    (Field_then (PetUpdate.price u1) (PetUpdate.price u2))
    (Field_then (PetUpdate.description u1) (PetUpdate.description u2))
    (Field_then (PetUpdate.photo_urls u1) (PetUpdate.photo_urls u2)).




(** A pet created with an infinite price. *)
Definition priceless : PetCreate.t :=
  PetCreate.mk "Rex" PetCategory.DOG PetStatus.PENDING [] (S754_infinity false) None [].

(** ** Settings ([app/config.py]) *)

Module Settings.
Record t := mk {
  app_name : string;
  debug : bool;
  host : string;
  port : Z;
  database_url : option string;
  secret_key : string;
  access_token_expire_minutes : Z;
  allowed_origins : list string;
  environment : string
}.
End Settings.

(** The defaults of the fields of [Settings]. *)
Definition Settings_defaults : Settings.t :=
  Settings.mk "Pet Store API" false "0.0.0.0" 8000 None
    "your-secret-key-change-in-production" 30 ["*"] "development".

(** [get_settings], over the module-level [_settings] ([None] until a
    call has built the settings).  [Settings_init env] is the outcome of
    [Settings()] when the process environment and the [.env] file are
    [env]: the settings, or [None] when a value cannot be read as the type
    of its field and [Settings()] raises [ValidationError]; the assignment
    to [_settings] is then not reached. *)
Definition get_settings {Env : Type} (Settings_init : Env -> option Settings.t) (env : Env)
    (_settings : option Settings.t) : Outcome Settings.t * option Settings.t :=
  match _settings with
  | None =>
    match Settings_init env with
    | Some v => (Return v, Some v)
    | None => (Raise ValidationError, None)
    end
  | Some v => (Return v, Some v)
  end.

(** Successive calls, each under the environment of its moment. *)
Fixpoint get_settings_calls {Env : Type} (Settings_init : Env -> option Settings.t)
    (envs : list Env) (_settings : option Settings.t) : list (Outcome Settings.t) :=
  match envs with
  | [] => []
  | env :: envs' =>
    let r := get_settings Settings_init env _settings in
    r.1 :: get_settings_calls Settings_init envs' r.2
  end.

(** An environment that either gives a readable port or an unreadable
    one, every other field being left to its default. *)
Definition port_env (port : option Z) : option Settings.t :=
  match port with
  | Some p =>
    Some (Settings.mk "Pet Store API" false "0.0.0.0" p None
            "your-secret-key-change-in-production" 30 ["*"] "development")
  | None => None
  end.

(** * Properties *)

(** ** Serving a request: the handler, then the rendering *)

Lemma handle_store (now : datetime) (req : Request) (s : Store) :
  (handle now req s).2 = (route now req s).2.
Proof.
  unfold handle. simpl. destruct (fst (route now req s)) as [b|e] eqn:E; [|done].
  by destruct (renders b).
Qed.

Lemma handle_raise (now : datetime) (req : Request) (s : Store) (e : Exception) :
  (route now req s).1 = Raise e -> (handle now req s).1 = Raise e.
Proof. intros H. unfold handle. by rewrite H. Qed.

Lemma handle_return (now : datetime) (req : Request) (s : Store) (body : Body) :
  (route now req s).1 = Return body -> renders body = true ->
  (handle now req s).1 = Return body.
Proof. intros H Hr. unfold handle. by rewrite H, Hr. Qed.

Lemma handle_unrendered (now : datetime) (req : Request) (s : Store) (body : Body) :
  (route now req s).1 = Return body -> renders body = false ->
  (handle now req s).1 = Raise ValueError.
Proof. intros H Hr. unfold handle. by rewrite H, Hr. Qed.

Lemma handle_route (now : datetime) (req : Request) (s : Store) :
  (forall body, (route now req s).1 = Return body -> renders body = true) ->
  handle now req s = route now req s.
Proof.
  intros H. unfold handle. simpl. destruct (fst (route now req s)) as [b|e] eqn:E; [|done].
  by rewrite (H b).
Qed.

(** What [handle] returns, the handler returned and it was rendered;
    what [handle] raises, the handler raised, or it is the [ValueError] of
    a body that was returned and not rendered. *)
Lemma handle_cases (now : datetime) (req : Request) (s : Store) :
  match (handle now req s).1 with
  | Return body => (route now req s).1 = Return body /\ renders body = true
  | Raise e =>
    (route now req s).1 = Raise e \/
    (e = ValueError /\ exists body, (route now req s).1 = Return body /\ renders body = false)
  end.
Proof.
  unfold handle. simpl. destruct (fst (route now req s)) as [b|e] eqn:E0.
  - destruct (renders b) eqn:E; simpl; [by rewrite E0|].
    right. split; [done|]. by exists b.
  - rewrite E0. by left.
Qed.

(** ** The built-ins *)

Lemma fold_max_ge (xs : list Z) (x : Z) :
  x <= fold_left Z.max xs x /\ forall y, y ∈ xs -> y <= fold_left Z.max xs x.
Proof.
  revert x. induction xs as [|a xs IH]; intros x; simpl.
  - split; [lia|]. intros y Hy. inversion Hy.
  - destruct (IH (Z.max x a)) as [H1 H2]. split; [lia|].
    intros y Hy. apply elem_of_cons in Hy as [->|Hy]; [lia|auto].
Qed.

Lemma fold_max_elem (xs : list Z) (x : Z) :
  fold_left Z.max xs x = x \/ fold_left Z.max xs x ∈ xs.
Proof.
  revert x. induction xs as [|a xs IH]; intros x; simpl; [by left|].
  destruct (IH (Z.max x a)) as [H|H].
  - rewrite H. destruct (Z.max_spec x a) as [[_ ->]|[_ ->]]; [right; left|by left].
  - right. by right.
Qed.

Lemma py_max_nil (d : Z) : py_max [] d = d.
Proof. reflexivity. Qed.

Lemma py_max_ge (l : list Z) (d x : Z) : x ∈ l -> x <= py_max l d.
Proof.
  destruct l as [|a l]; [by inversion 1|]. simpl.
  destruct (fold_max_ge l a) as [H1 H2].
  intros [->|H]%elem_of_cons; auto.
Qed.

Lemma py_max_elem (l : list Z) (d : Z) : l <> [] -> py_max l d ∈ l.
Proof.
  destruct l as [|a l]; [done|]. intros _. simpl.
  destruct (fold_max_elem l a) as [->|H]; [left|by right].
Qed.

Lemma py_max_next (ids : list Z) : is_next_id ids (py_max ids 0 + 1).
Proof.
  split.
  - by intros ->.
  - intros Hne. replace (py_max ids 0 + 1 - 1) with (py_max ids 0) by lia.
    split; [by apply py_max_elem|]. intros x Hx. by apply py_max_ge.
Qed.

Lemma next_id_above (ids : list Z) (n x : Z) : is_next_id ids n -> x ∈ ids -> x < n.
Proof.
  intros [_ H] Hx. destruct ids as [|a ids]; [by inversion Hx|].
  destruct H as [_ H]; [done|]. specialize (H x Hx). lia.
Qed.

(** [any(r.key == k for r in l)], for an integer and for a string key. *)
Lemma any_id_elem {A : Type} (key : A -> Z) (k : Z) (l : list A) :
  existsb (fun r => key r =? k) l = true <-> k ∈ key <$> l.
Proof.
  rewrite existsb_exists, list_elem_of_fmap. split.
  - intros (r & Hr & Hk%Z.eqb_eq). exists r. split; [done|by apply list_elem_of_In].
  - intros (r & Hk & Hr). exists r. split; [by apply list_elem_of_In|by apply Z.eqb_eq].
Qed.

Lemma any_str_elem {A : Type} (key : A -> string) (k : string) (l : list A) :
  existsb (fun r => String.eqb (key r) k) l = true <-> k ∈ key <$> l.
Proof.
  rewrite existsb_exists, list_elem_of_fmap. split.
  - intros (r & Hr & Hk%String.eqb_eq). exists r. split; [done|by apply list_elem_of_In].
  - intros (r & Hk & Hr). exists r. split; [by apply list_elem_of_In|by apply String.eqb_eq].
Qed.

Lemma any_id_false {A : Type} (key : A -> Z) (k : Z) (l : list A) :
  k ∉ key <$> l -> existsb (fun r => key r =? k) l = false.
Proof. intros H. apply not_true_is_false. by rewrite any_id_elem. Qed.

Lemma any_str_false {A : Type} (key : A -> string) (k : string) (l : list A) :
  k ∉ key <$> l -> existsb (fun r => String.eqb (key r) k) l = false.
Proof. intros H. apply not_true_is_false. by rewrite any_str_elem. Qed.

(** The first record of a given key, when keys are told apart by [key]. *)
Lemma find_key_None {A : Type} (key : A -> Z) (k : Z) (l : list A) :
  list_find (fun r => key r = k) l = None <-> k ∉ key <$> l.
Proof.
  rewrite list_find_None, Forall_forall, list_elem_of_fmap. split.
  - intros H (r & Hk & Hr). by apply (H r).
  - intros H r Hr Hk. apply H. by exists r.
Qed.

Lemma find_key_NoDup {A : Type} (key : A -> Z) (l : list A) (i : nat) (r : A) :
  NoDup (key <$> l) -> l !! i = Some r ->
  list_find (fun r' => key r' = key r) l = Some (i, r).
Proof.
  intros Hnd Hi. apply list_find_Some. split; [done|]. split; [done|].
  intros j y Hj Hlt Hk.
  assert (j = i); [|lia].
  apply (NoDup_lookup (key <$> l) j i (key r)); [done| |];
    rewrite list_lookup_fmap; [by rewrite Hj; simpl; f_equal|by rewrite Hi].
Qed.

(** A conforming pet has a projection, and a created pet conforms. *)
Lemma conforms_response (pet : Pet.t) :
  Pet.conforms pet = true -> is_Some (PetResponse_of pet).
Proof.
  unfold Pet.conforms, PetResponse_of.
  destruct pet as [? [] [] [] [] [] ? [] ? ?]; intros H; cbv in H;
    first [discriminate H | unfold is_Some; eexists; reflexivity].
Qed.

(** ** Creation: the three POST handlers, branch by branch *)

Lemma create_pet_ok (pet : PetCreate.t) (now : datetime) (s : Store) :
  exists r,
    PetResponse_of (new_pet_of pet now s) = Some r /\
    create_pet pet now s =
      (Return r, mkStore (pets_db s ++ [new_pet_of pet now s]) (orders_db s) (users_db s)).
Proof. eexists. split; reflexivity. Qed.

Lemma create_order_no_pet (order : OrderCreate.t) (now : datetime) (s : Store) :
  OrderCreate.pet_id order ∉ Pet.id <$> pets_db s ->
  create_order order now s = (Raise (HTTPException 400 "Pet not found"), s).
Proof.
  intros H%any_id_false. unfold create_order. by rewrite H.
Qed.

Lemma create_order_no_user (order : OrderCreate.t) (now : datetime) (s : Store) :
  OrderCreate.pet_id order ∈ Pet.id <$> pets_db s ->
  OrderCreate.user_id order ∉ User.id <$> users_db s ->
  create_order order now s = (Raise (HTTPException 400 "User not found"), s).
Proof.
  intros Hp%any_id_elem Hu%any_id_false. unfold create_order. by rewrite Hp, Hu.
Qed.

Lemma create_order_ok (order : OrderCreate.t) (now : datetime) (s : Store) :
  OrderCreate.pet_id order ∈ Pet.id <$> pets_db s ->
  OrderCreate.user_id order ∈ User.id <$> users_db s ->
  create_order order now s =
    (Return (OrderResponse_of (new_order_of order now s)),
     mkStore (pets_db s) (orders_db s ++ [new_order_of order now s]) (users_db s)).
Proof.
  intros Hp%any_id_elem Hu%any_id_elem. unfold create_order. by rewrite Hp, Hu.
Qed.

Lemma create_user_dup_username (user : UserCreate.t) (now : datetime) (s : Store) :
  UserCreate.username user ∈ User.username <$> users_db s ->
  create_user user now s = (Raise (HTTPException 400 "Username already exists"), s).
Proof. intros H%any_str_elem. unfold create_user. by rewrite H. Qed.

Lemma create_user_dup_email (user : UserCreate.t) (now : datetime) (s : Store) :
  UserCreate.username user ∉ User.username <$> users_db s ->
  UserCreate.email user ∈ User.email <$> users_db s ->
  create_user user now s = (Raise (HTTPException 400 "Email already exists"), s).
Proof.
  intros Hn%any_str_false He%any_str_elem. unfold create_user. by rewrite Hn, He.
Qed.

Lemma create_user_ok (user : UserCreate.t) (now : datetime) (s : Store) :
  UserCreate.username user ∉ User.username <$> users_db s ->
  UserCreate.email user ∉ User.email <$> users_db s ->
  create_user user now s =
    (Return (UserResponse_of (new_user_of user now s)),
     mkStore (pets_db s) (orders_db s) (users_db s ++ [new_user_of user now s])).
Proof.
  intros Hn%any_str_false He%any_str_false. unfold create_user. by rewrite Hn, He.
Qed.

(** C1: a pet creation hands out, and returns, one more than the greatest
    id present in the pet collection (1 when it is empty) and appends the
    new pet at the end; an accepted order creation and an accepted user
    creation do the same over their collections. *)
Theorem create_assigns_next_id (s : Store) (now : datetime)
    (pet : PetCreate.t) (order : OrderCreate.t) (user : UserCreate.t) :
  (exists new_pet r,
      create_pet pet now s =
        (Return r, mkStore (pets_db s ++ [new_pet]) (orders_db s) (users_db s))
      /\ PetResponse.id r = Pet.id new_pet
      /\ is_next_id (Pet.id <$> pets_db s) (Pet.id new_pet))
  /\ (OrderCreate.pet_id order ∈ Pet.id <$> pets_db s ->
      OrderCreate.user_id order ∈ User.id <$> users_db s ->
      exists new_order r,
        create_order order now s =
          (Return r, mkStore (pets_db s) (orders_db s ++ [new_order]) (users_db s))
        /\ OrderResponse.id r = Order.id new_order
        /\ is_next_id (Order.id <$> orders_db s) (Order.id new_order))
  /\ (UserCreate.username user ∉ User.username <$> users_db s ->
      UserCreate.email user ∉ User.email <$> users_db s ->
      exists new_user r,
        create_user user now s =
          (Return r, mkStore (pets_db s) (orders_db s) (users_db s ++ [new_user]))
        /\ UserResponse.id r = User.id new_user
        /\ is_next_id (User.id <$> users_db s) (User.id new_user)).
Proof.
  split; [|split].
  - destruct (create_pet_ok pet now s) as (r & Hr & E).
    exists (new_pet_of pet now s), r. split; [done|]. split.
    + by injection Hr as <-.
    + apply py_max_next.
  - intros Hp Hu. eexists _, _. split; [by apply create_order_ok|].
    split; [done|apply py_max_next].
  - intros Hn He. eexists _, _. split; [by apply create_user_ok|].
    split; [done|apply py_max_next].
Qed.

Lemma create_assigns_next_id_witness :
  (exists new_order r,
      create_order order_1_1 5 store0 =
        (Return r, mkStore (pets_db store0) (orders_db store0 ++ [new_order]) (users_db store0))
      /\ OrderResponse.id r = Order.id new_order
      /\ is_next_id (Order.id <$> orders_db store0) (Order.id new_order))
  /\ (exists new_user r,
      create_user newuser 5 store0 =
        (Return r, mkStore (pets_db store0) (orders_db store0) (users_db store0 ++ [new_user]))
      /\ UserResponse.id r = User.id new_user
      /\ is_next_id (User.id <$> users_db store0) (User.id new_user)).
Proof.
  destruct (create_assigns_next_id store0 5 rex order_1_1 newuser) as (_ & Ho & Hu).
  split.
  - apply Ho; apply any_id_elem; reflexivity.
  - apply Hu; intros H%any_str_elem; discriminate H.
Defined.

(** ** Rejected and accepted creations *)

(** C3: an order whose [pet_id] is the id of no pet, or whose [user_id] is
    the id of no user, is refused with status 400 (not 404) and the
    store, so the order collection, is left as it was; any other order is
    given the next id and the clock reading as [created_at], is appended
    to the orders, and the response, answered with status 201, carries
    that id, that [created_at] and every field of the request. *)
Theorem create_order_checks_references (s : Store) (order : OrderCreate.t) (now : datetime) :
  (OrderCreate.pet_id order ∉ Pet.id <$> pets_db s \/
   OrderCreate.user_id order ∉ User.id <$> users_db s ->
   (exists detail,
       create_order order now s = (Raise (HTTPException 400 detail), s)
       /\ handle now (POST_orders order) s = (Raise (HTTPException 400 detail), s))
   /\ status_code (POST_orders order) (handle now (POST_orders order) s).1 = 400
   /\ orders_db (handle now (POST_orders order) s).2 = orders_db s)
  /\ (OrderCreate.pet_id order ∈ Pet.id <$> pets_db s ->
      OrderCreate.user_id order ∈ User.id <$> users_db s ->
      exists new_order r,
        create_order order now s =
          (Return r, mkStore (pets_db s) (orders_db s ++ [new_order]) (users_db s))
        /\ handle now (POST_orders order) s =
          (Return (OneOrder r), mkStore (pets_db s) (orders_db s ++ [new_order]) (users_db s))
        /\ is_next_id (Order.id <$> orders_db s) (Order.id new_order)
        /\ Order.created_at new_order = now
        /\ Order.updated_at new_order = None
        /\ Order.pet_id new_order = OrderCreate.pet_id order
        /\ Order.user_id new_order = OrderCreate.user_id order
        /\ Order.quantity new_order = OrderCreate.quantity order
        /\ Order.ship_date new_order = OrderCreate.ship_date order
        /\ Order.status new_order = OrderCreate.status order
        /\ Order.complete new_order = OrderCreate.complete order
        /\ OrderResponse.id r = Order.id new_order
        /\ OrderResponse.created_at r = now
        /\ OrderResponse.updated_at r = None
        /\ OrderResponse.pet_id r = OrderCreate.pet_id order
        /\ OrderResponse.user_id r = OrderCreate.user_id order
        /\ OrderResponse.quantity r = OrderCreate.quantity order
        /\ OrderResponse.ship_date r = OrderCreate.ship_date order
        /\ OrderResponse.status r = OrderCreate.status order
        /\ OrderResponse.complete r = OrderCreate.complete order
        /\ status_code (POST_orders order) (handle now (POST_orders order) s).1 = 201).
Proof.
  assert (handle now (POST_orders order) s = to_body OneOrder (create_order order now s)) as Hh.
  { apply handle_route. intros body. simpl. unfold to_body.
    destruct (fst (create_order order now s)); simpl; [by intros [= <-]|done]. }
  split.
  - intros H.
    assert (exists detail,
      create_order order now s = (Raise (HTTPException 400 detail), s)) as [d Hd].
    { destruct (decide (OrderCreate.pet_id order ∈ Pet.id <$> pets_db s)) as [Hp|Hp].
      - destruct H as [H|H]; [done|]. eexists. by apply create_order_no_user.
      - eexists. by apply create_order_no_pet. }
    rewrite Hh. unfold to_body. rewrite Hd. split; [by exists d|done].
  - intros Hp Hu. exists (new_order_of order now s), (OrderResponse_of (new_order_of order now s)).
    rewrite Hh. unfold to_body. rewrite (create_order_ok order now s Hp Hu).
    split; [done|]. split; [done|]. split; [apply py_max_next|].
    repeat (split; [reflexivity|]). reflexivity.
Qed.

Lemma create_order_checks_references_witness :
  ((exists detail,
       create_order order_999_1 5 store0 = (Raise (HTTPException 400 detail), store0)
       /\ handle 5 (POST_orders order_999_1) store0 = (Raise (HTTPException 400 detail), store0))
   /\ status_code (POST_orders order_999_1) (handle 5 (POST_orders order_999_1) store0).1 = 400
   /\ orders_db (handle 5 (POST_orders order_999_1) store0).2 = orders_db store0)
  /\ (exists new_order r,
        handle 5 (POST_orders order_1_1) store0 =
          (Return (OneOrder r),
           mkStore (pets_db store0) (orders_db store0 ++ [new_order]) (users_db store0))
        /\ OrderResponse.id r = 1
        /\ OrderResponse.quantity r = 2
        /\ OrderResponse.created_at r = 5).
Proof.
  split.
  - apply (create_order_checks_references store0 order_999_1 5).
    left. intros H%any_id_elem. discriminate H.
  - destruct (create_order_checks_references store0 order_1_1 5) as [_ H].
    destruct H as (o & r & _ & Hh & [Hid _] & _ & _ & _ & _ & _ & _ & _ & _
                   & Hrid & Hrc & _ & _ & _ & Hrq & _);
      [apply any_id_elem; reflexivity ..|].
    exists o, r. split; [exact Hh|]. split; [rewrite Hrid; by apply Hid|].
    split; [exact Hrq|exact Hrc].
Defined.




(** C10: [create_order] looks for the pet before it looks for the user, so
    an order whose pet is missing is answered "Pet not found" whatever its
    user, and "User not found" is the answer exactly when the pet is there
    and the user is not; [create_user] compares usernames before emails,
    so a user who collides on the username is answered "Username already
    exists" whatever the email, and "Email already exists" is the answer
    exactly when the username is free and the email is taken. *)
Theorem checks_are_ordered (s : Store) (order : OrderCreate.t) (user : UserCreate.t)
    (now : datetime) :
  (OrderCreate.pet_id order ∉ Pet.id <$> pets_db s ->
   create_order order now s = (Raise (HTTPException 400 "Pet not found"), s))
  /\ (((create_order order now s).1 = Raise (HTTPException 400 "User not found")) <->
      ((OrderCreate.pet_id order ∈ Pet.id <$> pets_db s) /\
       (OrderCreate.user_id order ∉ User.id <$> users_db s)))
  /\ (UserCreate.username user ∈ User.username <$> users_db s ->
      create_user user now s = (Raise (HTTPException 400 "Username already exists"), s))
  /\ (((create_user user now s).1 = Raise (HTTPException 400 "Email already exists")) <->
      ((UserCreate.username user ∉ User.username <$> users_db s) /\
       (UserCreate.email user ∈ User.email <$> users_db s))).
Proof.
  split; [apply create_order_no_pet|]. split; [|split; [apply create_user_dup_username|]].
  - split.
    + intros H.
      destruct (decide (OrderCreate.pet_id order ∈ Pet.id <$> pets_db s)) as [Hp|Hp];
        [|by rewrite create_order_no_pet in H].
      destruct (decide (OrderCreate.user_id order ∈ User.id <$> users_db s)) as [Hu|Hu];
        [by rewrite create_order_ok in H|done].
    + intros [Hp Hu]. by rewrite create_order_no_user.
  - split.
    + intros H.
      destruct (decide (UserCreate.username user ∈ User.username <$> users_db s)) as [Hn|Hn];
        [by rewrite create_user_dup_username in H|].
      destruct (decide (UserCreate.email user ∈ User.email <$> users_db s)) as [He|He];
        [done|by rewrite create_user_ok in H].
    + intros [Hn He]. by rewrite create_user_dup_email.
Qed.

Lemma checks_are_ordered_witness :
  create_order order_999_999 5 store0 = (Raise (HTTPException 400 "Pet not found"), store0)
  /\ create_user johndoe_again 5 store0 =
       (Raise (HTTPException 400 "Username already exists"), store0).
Proof.
  destruct (checks_are_ordered store0 order_999_999 johndoe_again 5) as (Ho & _ & Hu & _).
  split.
  - apply Ho. intros H%any_id_elem. discriminate H.
  - apply Hu. apply any_str_elem. reflexivity.
Defined.

(** ** Update *)

Lemma merge_follows {A : Type} (f : Field A) (old : option A) :
  follows f old (merge old f).
Proof. split; [by intros ->|by intros v ->]. Qed.

Lemma update_pet_found (s : Store) (i : nat) (pet : Pet.t) (u : PetUpdate.t) (now : datetime) :
  list_find (fun q => Pet.id q = Pet.id pet) (pets_db s) = Some (i, pet) ->
  update_pet (Pet.id pet) (Some u) now s =
    respond (PetResponse_of (set_updated_at (Pet_copy pet u) now)) (fun r => r)
      (mkStore (<[i := set_updated_at (Pet_copy pet u) now]> (pets_db s))
         (orders_db s) (users_db s)).
Proof. intros H. unfold update_pet. by rewrite H. Qed.

Lemma respond_store {A B : Type} (r : option A) (f : A -> B) (s : Store) :
  (respond r f s).2 = s.
Proof. by destruct r. Qed.

(** C2: updating a pet [p] of a collection with distinct ids writes, at
    the position of [p], a record in which every attribute the payload
    gives has the given value and every attribute it omits, as well as
    [id] and [created_at], has the value it had in [p]; [updated_at] is
    the clock reading of the update, so not earlier than the former one
    when the clock has not gone back; the other positions, the length,
    the orders and the users are as before. *)
Theorem update_pet_is_partial (s : Store) (i : nat) (p : Pet.t) (u : PetUpdate.t)
    (now : datetime) :
  NoDup (Pet.id <$> pets_db s) ->
  pets_db s !! i = Some p ->
  exists p',
    (update_pet (Pet.id p) (Some u) now s).2 =
      mkStore (<[i := p']> (pets_db s)) (orders_db s) (users_db s)
    /\ pets_db (update_pet (Pet.id p) (Some u) now s).2 !! i = Some p'
    /\ (forall j, j <> i ->
          pets_db (update_pet (Pet.id p) (Some u) now s).2 !! j = pets_db s !! j)
    /\ length (pets_db (update_pet (Pet.id p) (Some u) now s).2) = length (pets_db s)
    /\ follows (PetUpdate.name u) (Pet.name p) (Pet.name p')
    /\ follows (PetUpdate.category u) (Pet.category p) (Pet.category p')
    /\ follows (PetUpdate.status u) (Pet.status p) (Pet.status p')
    /\ follows (PetUpdate.tags u) (Pet.tags p) (Pet.tags p')
    /\ follows (PetUpdate.price u) (Pet.price p) (Pet.price p')
    /\ follows (PetUpdate.description u) (Pet.description p) (Pet.description p')
    /\ follows (PetUpdate.photo_urls u) (Pet.photo_urls p) (Pet.photo_urls p')
    /\ Pet.id p' = Pet.id p
    /\ Pet.created_at p' = Pet.created_at p
    /\ Pet.updated_at p' = Some now
    /\ (forall t, Pet.updated_at p = Some t -> t <= now ->
          exists t', Pet.updated_at p' = Some t' /\ t <= t')
    /\ (update_pet (Pet.id p) (Some u) now s).1 =
         match PetResponse_of p' with
         | Some r => Return r
         | None => Raise ValidationError
         end.
Proof.
  intros Hnd Hi.
  pose proof (find_key_NoDup Pet.id (pets_db s) i p Hnd Hi) as Hf.
  rewrite (update_pet_found s i p u now Hf).
  exists (set_updated_at (Pet_copy p u) now).
  rewrite respond_store. simpl.
  split; [done|].
  split; [apply list_lookup_insert_eq; by eapply lookup_lt_Some|].
  split; [intros j Hj; by apply list_lookup_insert_ne|].
  split; [apply length_insert|].
  repeat (split; [apply merge_follows|]).
  repeat (split; [reflexivity|]).
  split; [intros t _ Ht; by exists now|].
  by destruct (PetResponse_of _).
Qed.

Lemma NoDup_store0_pets : NoDup (Pet.id <$> pets_db store0).
Proof. apply (bool_decide_unpack _). vm_compute. exact I. Defined.

Lemma update_pet_is_partial_witness :
  exists p',
    pets_db (update_pet 1 (Some rename_and_reprice) 9 store0).2 !! 0%nat = Some p'
    /\ Pet.name p' = Some "Buddy Updated"
    /\ Pet.price p' = Some f199_99
    /\ Pet.status p' = Some PetStatus.AVAILABLE
    /\ Pet.updated_at p' = Some 9.
Proof.
  destruct (update_pet_is_partial store0 0
              (Pet.mk 1 (Some "Buddy") (Some PetCategory.DOG) (Some PetStatus.AVAILABLE)
                 (Some ["friendly"; "house-trained"]) (Some f299_99)
                 (Some "A friendly golden retriever")
                 (Some ["https://example.com/buddy1.jpg"]) 0 None)
              rename_and_reprice 9 NoDup_store0_pets eq_refl)
    as (p' & _ & Hi & _ & _ & [_ Hn] & _ & [Hs _] & _ & [_ Hp] & _ & _ & _ & _ & Hu & _).
  exists p'. split; [exact Hi|]. split; [exact (Hn _ eq_refl)|].
  split; [exact (Hp _ eq_refl)|]. split; [exact (Hs eq_refl)|exact Hu].
Defined.

(** ** Delete *)

Lemma filter_key_all {A : Type} (key : A -> Z) (k : Z) (l : list A) :
  k ∉ key <$> l -> filter (fun q => key q <> k) l = l.
Proof.
  induction l as [|a l IH]; [done|]. rewrite fmap_cons, not_elem_of_cons.
  intros [Hk Hl]. rewrite filter_cons_True by done. by rewrite IH.
Qed.

Lemma delete_filter_key {A : Type} (key : A -> Z) (l : list A) (i : nat) (r : A) :
  NoDup (key <$> l) -> l !! i = Some r ->
  delete i l = filter (fun q => key q <> key r) l.
Proof.
  revert i. induction l as [|a l IH]; intros i; [done|].
  rewrite fmap_cons, NoDup_cons. intros [Ha Hnd]. destruct i as [|i]; simpl.
  - intros [= ->]. rewrite filter_cons_False by (intros H; by apply H).
    by rewrite filter_key_all.
  - intros Hi. rewrite filter_cons_True.
    + f_equal. by apply IH.
    + intros E. apply Ha. rewrite E. apply list_elem_of_fmap. exists r.
      split; [done|]. by eapply list_elem_of_lookup_2.
Qed.

Lemma find_key_elem {A : Type} (key : A -> Z) (k : Z) (l : list A) :
  k ∈ key <$> l ->
  exists i r, list_find (fun q => key q = k) l = Some (i, r) /\ l !! i = Some r /\ key r = k.
Proof.
  intros H. destruct (list_find (fun q => key q = k) l) as [[i r]|] eqn:E.
  - exists i, r. apply list_find_Some in E as (? & ? & _). done.
  - by apply find_key_None in E.
Qed.

Lemma filter_key_gone {A : Type} (key : A -> Z) (k : Z) (l : list A) :
  k ∉ key <$> filter (fun q => key q <> k) l.
Proof.
  rewrite list_elem_of_fmap. intros (q & Hk & Hq).
  apply list_elem_of_filter in Hq as [Hq _]. by apply Hq.
Qed.

(** C9: deleting a pet by an id that no pet has is refused with 404 and
    changes nothing; deleting by the id of a pet of a collection with
    distinct ids removes that pet and no other (the pets with another id
    stay, in their order), leaves the orders and the users as they were,
    and a [get_pet] of the same id afterwards is refused with 404. *)
Theorem delete_pet_removes_one (s : Store) (pet_id : Z) (now : datetime) :
  (pet_id ∉ Pet.id <$> pets_db s ->
   delete_pet pet_id now s = (Raise (HTTPException 404 "Pet not found"), s))
  /\ (NoDup (Pet.id <$> pets_db s) ->
      pet_id ∈ Pet.id <$> pets_db s ->
      exists ack s',
        delete_pet pet_id now s = (Return ack, s')
        /\ pets_db s' = filter (fun q => Pet.id q <> pet_id) (pets_db s)
        /\ length (pets_db s) = S (length (pets_db s'))
        /\ orders_db s' = orders_db s
        /\ users_db s' = users_db s
        /\ get_pet pet_id s' = (Raise (HTTPException 404 "Pet not found"), s')).
Proof.
  split.
  - intros H%find_key_None. unfold delete_pet. by rewrite H.
  - intros Hnd (i & p & Hf & Hi & Hp)%find_key_elem.
    unfold delete_pet. rewrite Hf. eexists _, _. split; [reflexivity|]. simpl.
    assert (delete i (pets_db s) = filter (fun q => Pet.id q <> pet_id) (pets_db s)) as E.
    { rewrite <- Hp. by apply delete_filter_key. }
    split; [done|].
    split; [rewrite length_delete by (by eexists); apply lookup_lt_Some in Hi; lia|].
    split; [done|]. split; [done|].
    unfold get_pet. simpl. rewrite E.
    pose proof (filter_key_gone Pet.id pet_id (pets_db s)) as Hg.
    apply find_key_None in Hg. by rewrite Hg.
Qed.

Lemma delete_pet_removes_one_witness :
  delete_pet 999 5 store0 = (Raise (HTTPException 404 "Pet not found"), store0)
  /\ exists ack s',
       delete_pet 2 5 store0 = (Return ack, s')
       /\ pets_db s' = filter (fun q => Pet.id q <> 2) (pets_db store0)
       /\ length (pets_db store0) = S (length (pets_db s'))
       /\ orders_db s' = orders_db store0
       /\ users_db s' = users_db store0
       /\ get_pet 2 s' = (Raise (HTTPException 404 "Pet not found"), s').
Proof.
  split.
  - apply (delete_pet_removes_one store0 999 5).
    intros H%any_id_elem. discriminate H.
  - apply (delete_pet_removes_one store0 2 5).
    + exact NoDup_store0_pets.
    + apply any_id_elem. reflexivity.
Defined.

(** ** Inventory *)

Lemma sum_values_empty : sum_values ∅ = 0.
Proof. apply map_fold_empty. Qed.

Lemma sum_values_insert_fresh (m : gmap string Z) (k : string) (v : Z) :
  m !! k = None -> sum_values (<[k := v]> m) = v + sum_values m.
Proof.
  intros H. unfold sum_values. rewrite map_fold_insert_L; [done| |done].
  intros. lia.
Qed.

Lemma sum_values_delete (m : gmap string Z) (k : string) (x : Z) :
  m !! k = Some x -> sum_values m = x + sum_values (delete k m).
Proof.
  intros H. unfold sum_values.
  rewrite (map_fold_delete_L (fun _ v acc => v + acc) 0 k x m); [done| |done].
  intros. lia.
Qed.

Lemma sum_values_insert (m : gmap string Z) (k : string) (v : Z) :
  sum_values (<[k := v]> m) = sum_values m - default 0 (m !! k) + v.
Proof.
  destruct (m !! k) as [x|] eqn:E; simpl.
  - rewrite <- (insert_delete_eq m k v).
    rewrite sum_values_insert_fresh by apply lookup_delete_eq.
    rewrite (sum_values_delete m k x E). lia.
  - rewrite sum_values_insert_fresh by done. lia.
Qed.

Lemma tally_eq (m : gmap string Z) (pet : Pet.t) (st : PetStatus.t) :
  Pet.status pet = Some st ->
  tally m pet =
    Return (<[PetStatus.value st := default 0 (m !! PetStatus.value st) + 1]> m).
Proof.
  intros H. unfold tally. rewrite H.
  destruct (m !! PetStatus.value st) as [n|] eqn:E; simpl.
  - by rewrite E.
  - by rewrite lookup_insert_eq, insert_insert_eq.
Qed.

Lemma tally_null (m : gmap string Z) (pet : Pet.t) :
  Pet.status pet = None -> tally m pet = Raise AttributeError.
Proof. intros H. unfold tally. by rewrite H. Qed.

Lemma tallied_default (k : string) (pets : list Pet.t) :
  default 0 (tallied k pets) = Z.of_nat (length (filter (holds k) pets)).
Proof. unfold tallied. case_decide as E; simpl; [by rewrite E|done]. Qed.

Lemma tallies_step (m : gmap string Z) (pets : list Pet.t) (pet : Pet.t) (st : PetStatus.t) :
  tallies m pets -> Pet.status pet = Some st ->
  tallies (<[PetStatus.value st := default 0 (m !! PetStatus.value st) + 1]> m)
    (pets ++ [pet]).
Proof.
  intros [Hm Hsum] Hst. split.
  - intros k. unfold tallied at 1. rewrite filter_app, length_app.
    destruct (decide (k = PetStatus.value st)) as [->|Hk].
    + rewrite lookup_insert_eq, Hm, tallied_default.
      rewrite filter_cons_True by (unfold holds; by rewrite Hst). simpl.
      case_decide; [lia|]. f_equal. lia.
    + rewrite lookup_insert_ne by done. rewrite Hm.
      rewrite filter_cons_False by (unfold holds; rewrite Hst; simpl; congruence).
      simpl. rewrite Nat.add_0_r. done.
  - rewrite sum_values_insert, Hsum, length_app. simpl. lia.
Qed.

Lemma tallies_empty : tallies ∅ [].
Proof. split; [intros k; by rewrite lookup_empty|by rewrite sum_values_empty]. Qed.

Lemma tally_all_tallies (rest pets : list Pet.t) (m : gmap string Z) :
  tallies m pets ->
  Forall (fun pet => is_Some (Pet.status pet)) rest ->
  exists m', tally_all rest m = Return m' /\ tallies m' (pets ++ rest).
Proof.
  revert pets m. induction rest as [|pet rest IH]; intros pets m Hm Hall.
  - exists m. by rewrite app_nil_r.
  - apply Forall_cons in Hall as [[st Hst] Hall]. simpl.
    rewrite (tally_eq m pet st Hst).
    pose proof (tallies_step _ _ pet st Hm Hst) as Hstep.
    destruct (IH _ _ Hstep Hall) as (m' & Hr & Hm').
    exists m'. split; [done|]. by rewrite <- app_assoc in Hm'.
Qed.

(** A pet whose status holds [None] stops the loop with the
    [AttributeError] of [pet.status.value], and an update that sets the
    status to null stores such a pet before its own projection fails. *)
Lemma tally_all_null (pets : list Pet.t) (m : gmap string Z) :
  Exists (fun pet => Pet.status pet = None) pets ->
  tally_all pets m = Raise AttributeError.
Proof.
  intros H. revert m. induction H as [pet pets Hn|pet pets _ IH]; intros m; simpl.
  - by rewrite tally_null.
  - destruct (Pet.status pet) as [st|] eqn:E; [|by rewrite tally_null].
    rewrite (tally_eq m pet st E). apply IH.
Qed.

Example null_status_update :
  (update_pet 1 (Some null_status) 9 store0).1 = Raise ValidationError
  /\ Pet.status <$> pets_db (update_pet 1 (Some null_status) 9 store0).2 !! 0%nat
     = Some None
  /\ (get_inventory (update_pet 1 (Some null_status) 9 store0).2).1
     = Raise AttributeError.
Proof. repeat split; vm_compute; reflexivity. Qed.







(** ** Listing *)







Lemma filter_true {A : Type} (l : list A) : List.filter (fun _ => true) l = l.
Proof. induction l as [|a l IH]; [done|]. simpl. by rewrite IH. Qed.

Lemma py_slice_page {A : Type} (l : list A) (limit offset : Z) :
  0 <= limit -> 0 <= offset ->
  py_slice l offset (offset + limit) = take (Z.to_nat limit) (drop (Z.to_nat offset) l).
Proof.
  intros Hl Ho. unfold py_slice, slice_bound.
  destruct (Z.ltb_spec offset 0) as [?|_]; [lia|].
  destruct (Z.ltb_spec (offset + limit) 0) as [?|_]; [lia|].
  destruct (decide (Z.of_nat (length l) <= offset)) as [Hge|Hlt].
  - rewrite (Z.min_r offset) by lia.
    rewrite (drop_ge l (Z.to_nat (Z.of_nat (length l)))) by lia.
    rewrite (drop_ge l (Z.to_nat offset)) by lia. by rewrite !take_nil.
  - rewrite (Z.min_l offset) by lia.
    destruct (decide (offset + limit <= Z.of_nat (length l))) as [Hin|Hout].
    + rewrite Z.min_l by lia. do 2 f_equal. lia.
    + rewrite Z.min_r by lia. rewrite !take_ge; [done| |]; rewrite length_drop; lia.
Qed.











(** ** Ids along a run *)

Lemma sorted_delete (l : list Z) (i : nat) :
  StronglySorted Z.lt l -> StronglySorted Z.lt (delete i l).
Proof.
  intros H. revert i. induction H as [|a l Hl IH Ha]; intros i; [constructor|].
  destruct i as [|i]; simpl; [done|]. constructor; [apply IH|].
  apply Forall_forall. intros x Hx%list_elem_of_delete_inv.
  by eapply Forall_forall in Ha.
Qed.

Lemma sorted_snoc_next (l : list Z) (n : Z) :
  StronglySorted Z.lt l -> is_next_id l n -> StronglySorted Z.lt (l ++ [n]).
Proof.
  intros Hl Hn. apply StronglySorted_app_2; [|done|repeat constructor].
  intros x1 x2 H1 ->%list_elem_of_singleton. by eapply next_id_above.
Qed.

Lemma sorted_NoDup (l : list Z) : StronglySorted Z.lt l -> NoDup l.
Proof.
  induction 1 as [|a l Hl IH Ha]; constructor; [|done].
  intros Hin. eapply Forall_forall in Ha; [|exact Hin]. lia.
Qed.

Lemma run_app (s : Store) (reqs1 reqs2 : list (datetime * Request)) :
  run s (reqs1 ++ reqs2) =
    ((run s reqs1).1 ++ (run (run s reqs1).2 reqs2).1, (run (run s reqs1).2 reqs2).2).
Proof.
  revert s. induction reqs1 as [|[now req] reqs1 IH]; intros s; simpl.
  - by destruct (run s reqs2).
  - by rewrite IH.
Qed.

(** One collection, seen through the list of its ids: what a request does
    to it, and what follows for every run. *)
Section Collection.
Variable ids : Store -> list Z.
Variable assigned : Request * Outcome Body -> option Z.
Variable deleted : Request -> option Z.

Hypothesis Hacts : acts_on_ids ids assigned deleted.

Lemma step_sorted (now : datetime) (req : Request) (s : Store) :
  StronglySorted Z.lt (ids s) -> StronglySorted Z.lt (ids (handle now req s).2).
Proof.
  intros Hs. pose proof (Hacts now req s) as H.
  destruct (assigned _) as [k|].
  - destruct H as [-> Hk]. by apply sorted_snoc_next.
  - destruct (deleted req) as [d|].
    + destruct H as [->|(i & _ & ->)]; [done|by apply sorted_delete].
    + destruct H as [->|(k & -> & Hk)]; [done|by apply sorted_snoc_next].
Qed.

Lemma run_sorted (reqs : list (datetime * Request)) (s : Store) :
  StronglySorted Z.lt (ids s) -> StronglySorted Z.lt (ids (run s reqs).2).
Proof.
  revert s. induction reqs as [|[now req] reqs IH]; intros s Hs; [done|].
  simpl. apply IH. by apply step_sorted.
Qed.

Lemma step_fresh (now : datetime) (req : Request) (s : Store) (k x : Z) :
  assigned (req, (handle now req s).1) = Some k -> x ∈ ids s -> x < k.
Proof.
  intros Hk Hx. pose proof (Hacts now req s) as H. rewrite Hk in H.
  destruct H as [_ H]. by eapply next_id_above.
Qed.

Lemma step_added (now : datetime) (req : Request) (s : Store) (k : Z) :
  assigned (req, (handle now req s).1) = Some k -> k ∈ ids (handle now req s).2.
Proof.
  intros Hk. pose proof (Hacts now req s) as H. rewrite Hk in H.
  destruct H as [-> _]. apply elem_of_app. right. left.
Qed.

Lemma step_keeps (now : datetime) (req : Request) (s : Store) (x : Z) :
  x ∈ ids s -> deleted req <> Some x -> x ∈ ids (handle now req s).2.
Proof.
  intros Hx Hd. pose proof (Hacts now req s) as H.
  destruct (assigned _) as [k|].
  - destruct H as [-> _]. apply elem_of_app. by left.
  - destruct (deleted req) as [d|];
      [|destruct H as [->|(k & -> & _)]; [done|apply elem_of_app; by left]].
    destruct H as [->|(i & Hi & ->)]; [done|].
    apply list_elem_of_lookup in Hx as [j Hj].
    assert (j <> i) as Hne by (intros ->; congruence).
    apply list_elem_of_lookup.
    destruct (decide (j < i)%nat) as [Hlt|Hge].
    + exists j. by rewrite list_lookup_delete_lt.
    + exists (pred j). rewrite list_lookup_delete_ge by lia.
      by replace (S (pred j)) with j by lia.
Qed.

Lemma run_keeps (reqs : list (datetime * Request)) (s : Store) (x : Z) :
  x ∈ ids s -> Forall (fun r => deleted r.2 <> Some x) reqs ->
  x ∈ ids (run s reqs).2.
Proof.
  revert s. induction reqs as [|[now req] reqs IH]; intros s Hx Hall; [done|].
  apply Forall_cons in Hall as [Hd Hall]. simpl.
  apply IH; [by apply step_keeps|done].
Qed.

(** An id handed out twice in a run was deleted in between. *)
Lemma reuse_needs_delete (s : Store) (reqs : list (datetime * Request))
    (now1 now2 : datetime) (req1 req2 : Request) (k : Z) :
  let s1 := handle now1 req1 s in
  let s2 := (run s1.2 reqs).2 in
  assigned (req1, s1.1) = Some k ->
  assigned (req2, (handle now2 req2 s2).1) = Some k ->
  Exists (fun r => deleted r.2 = Some k) reqs.
Proof.
  intros s1 s2 H1 H2.
  destruct (decide (Exists (fun r => deleted r.2 = Some k) reqs)) as [|Hno]; [done|].
  apply not_Exists_Forall in Hno; [|intros r; apply _].
  assert (k ∈ ids s2) as Hin.
  { apply run_keeps; [by apply step_added|exact Hno]. }
  pose proof (step_fresh now2 req2 s2 k k H2 Hin). lia.
Qed.

(** Without a DELETE on the collection, its ids after a run are those
    it had followed by those appended, among which are, in the order of
    the requests, those handed out. *)
Lemma run_without_delete (reqs : list (datetime * Request)) (s : Store) :
  Forall (fun r => deleted r.2 = None) reqs ->
  exists appended,
    ids (run s reqs).2 = ids s ++ appended
    /\ sublist (assigned_ids assigned (run s reqs).1) appended.
Proof.
  revert s. induction reqs as [|[now req] reqs IH]; intros s Hall.
  - exists []. by rewrite app_nil_r.
  - apply Forall_cons in Hall as [Hd Hall]. simpl in Hd |- *.
    destruct (IH (handle now req s).2 Hall) as (l & -> & Hl).
    pose proof (Hacts now req s) as H.
    unfold assigned_ids in *. simpl. destruct (assigned _) as [k|].
    + destruct H as [-> _]. exists (k :: l). rewrite <- app_assoc.
      split; [done|]. by apply sublist_skip.
    + rewrite Hd in H. destruct H as [->|(k & -> & _)].
      * by exists l.
      * exists (k :: l). rewrite <- app_assoc. split; [done|]. by apply sublist_cons.
Qed.

Lemma sorted_sublist (l1 l2 : list Z) :
  sublist l1 l2 -> StronglySorted Z.lt l2 -> StronglySorted Z.lt l1.
Proof.
  induction 1 as [|x l1 l2 Hsub IH|x l1 l2 Hsub IH]; intros Hs; [done| |].
  - apply StronglySorted_inv in Hs as [Hs Hx]. constructor; [by apply IH|].
    apply Forall_forall. intros y Hy. eapply Forall_forall in Hx; [exact Hx|].
    by eapply elem_of_sublist.
  - apply StronglySorted_inv in Hs as [Hs _]. by apply IH.
Qed.

Lemma assigned_increase (reqs : list (datetime * Request)) (s : Store) :
  StronglySorted Z.lt (ids s) ->
  Forall (fun r => deleted r.2 = None) reqs ->
  StronglySorted Z.lt (assigned_ids assigned (run s reqs).1).
Proof.
  intros Hs Hall. pose proof (run_sorted reqs s Hs) as H.
  destruct (run_without_delete reqs s Hall) as (l & E & Hl).
  rewrite E in H. apply StronglySorted_app_1_r in H. by eapply sorted_sublist.
Qed.
End Collection.

(** ** What each handler leaves in the store *)

Lemma to_body_store {A : Type} (f : A -> Body) (r : Outcome A * Store) :
  (to_body f r).2 = r.2.
Proof. unfold to_body. by destruct (r.1). Qed.

Lemma root_store (now : datetime) (s : Store) : (root now s).2 = s.
Proof. done. Qed.

Lemma health_check_store (now : datetime) (s : Store) : (health_check now s).2 = s.
Proof. done. Qed.

Lemma get_pets_store (status : option PetStatus.t) (category : option PetCategory.t)
    (limit offset : Z) (s : Store) :
  (get_pets status category limit offset s).2 = s.
Proof. unfold get_pets. destruct (negb _); [done|apply respond_store]. Qed.

Lemma get_pet_store (pet_id : Z) (s : Store) : (get_pet pet_id s).2 = s.
Proof.
  unfold get_pet. destruct (list_find _ _) as [[? ?]|]; [apply respond_store|done].
Qed.

Lemma get_orders_store (status : option OrderStatus.t) (limit offset : Z) (s : Store) :
  (get_orders status limit offset s).2 = s.
Proof. unfold get_orders. by destruct (negb _). Qed.

Lemma get_order_store (order_id : Z) (s : Store) : (get_order order_id s).2 = s.
Proof. unfold get_order. by destruct (list_find _ _) as [[? ?]|]. Qed.

Lemma get_users_store (limit offset : Z) (s : Store) : (get_users limit offset s).2 = s.
Proof. unfold get_users. by destruct (negb _). Qed.

Lemma get_user_store (user_id : Z) (s : Store) : (get_user user_id s).2 = s.
Proof. unfold get_user. by destruct (list_find _ _) as [[? ?]|]. Qed.

Lemma get_inventory_store (s : Store) : (get_inventory s).2 = s.
Proof. done. Qed.

Lemma create_pet_store (pet : PetCreate.t) (now : datetime) (s : Store) :
  (create_pet pet now s).2 =
    mkStore (pets_db s ++ [new_pet_of pet now s]) (orders_db s) (users_db s).
Proof. done. Qed.

Lemma update_pet_store (pet_id : Z) (pet_update : option PetUpdate.t) (now : datetime)
    (s : Store) :
  exists pets,
    (update_pet pet_id pet_update now s).2 = mkStore pets (orders_db s) (users_db s)
    /\ Pet.id <$> pets = Pet.id <$> pets_db s.
Proof.
  unfold update_pet.
  destruct (list_find _ _) as [[i pet]|] eqn:E; [|exists (pets_db s); by destruct s].
  destruct pet_update as [u|]; [|exists (pets_db s); by destruct s].
  rewrite respond_store. eexists. split; [reflexivity|].
  apply list_find_Some in E as (Hi & _ & _).
  rewrite list_fmap_insert. apply list_insert_id. rewrite list_lookup_fmap, Hi. done.
Qed.

(** A DELETE leaves the store alone, or removes from its own collection a
    record of the id it names. *)
Lemma delete_pet_store (pet_id : Z) (now : datetime) (s : Store) :
  (delete_pet pet_id now s).2 = s \/
  exists i,
    (Pet.id <$> pets_db s) !! i = Some pet_id /\
    (delete_pet pet_id now s).2 = mkStore (delete i (pets_db s)) (orders_db s) (users_db s).
Proof.
  unfold delete_pet. destruct (list_find _ _) as [[i pet]|] eqn:E; [right|by left].
  apply list_find_Some in E as (Hi & Hk & _).
  exists i. split; [|done]. by rewrite list_lookup_fmap, Hi, <- Hk.
Qed.

Lemma delete_order_store (order_id : Z) (now : datetime) (s : Store) :
  (delete_order order_id now s).2 = s \/
  exists i,
    (Order.id <$> orders_db s) !! i = Some order_id /\
    (delete_order order_id now s).2 =
      mkStore (pets_db s) (delete i (orders_db s)) (users_db s).
Proof.
  unfold delete_order. destruct (list_find _ _) as [[i order]|] eqn:E; [right|by left].
  apply list_find_Some in E as (Hi & Hk & _).
  exists i. split; [|done]. by rewrite list_lookup_fmap, Hi, <- Hk.
Qed.

Lemma delete_user_store (user_id : Z) (now : datetime) (s : Store) :
  (delete_user user_id now s).2 = s \/
  exists i,
    (User.id <$> users_db s) !! i = Some user_id /\
    (delete_user user_id now s).2 =
      mkStore (pets_db s) (orders_db s) (delete i (users_db s)).
Proof.
  unfold delete_user. destruct (list_find _ _) as [[i user]|] eqn:E; [right|by left].
  apply list_find_Some in E as (Hi & Hk & _).
  exists i. split; [|done]. by rewrite list_lookup_fmap, Hi, <- Hk.
Qed.

(** A POST on orders or users is refused and leaves the store alone, or
    appends the record it built and returns its projection. *)
Lemma create_order_cases (order : OrderCreate.t) (now : datetime) (s : Store) :
  (exists e, create_order order now s = (Raise e, s)) \/
  create_order order now s =
    (Return (OrderResponse_of (new_order_of order now s)),
     mkStore (pets_db s) (orders_db s ++ [new_order_of order now s]) (users_db s)).
Proof.
  destruct (decide (OrderCreate.pet_id order ∈ Pet.id <$> pets_db s)) as [Hp|Hp];
    [|left; eexists; by apply create_order_no_pet].
  destruct (decide (OrderCreate.user_id order ∈ User.id <$> users_db s)) as [Hu|Hu];
    [|left; eexists; by apply create_order_no_user].
  right. by apply create_order_ok.
Qed.

Lemma create_user_cases (user : UserCreate.t) (now : datetime) (s : Store) :
  (exists e, create_user user now s = (Raise e, s)) \/
  create_user user now s =
    (Return (UserResponse_of (new_user_of user now s)),
     mkStore (pets_db s) (orders_db s) (users_db s ++ [new_user_of user now s])).
Proof.
  destruct (decide (UserCreate.username user ∈ User.username <$> users_db s)) as [Hn|Hn];
    [left; eexists; by apply create_user_dup_username|].
  destruct (decide (UserCreate.email user ∈ User.email <$> users_db s)) as [He|He];
    [left; eexists; by apply create_user_dup_email|].
  right. by apply create_user_ok.
Qed.

Ltac frame :=
  rewrite ?to_body_store,
    ?root_store, ?health_check_store, ?get_pets_store, ?get_pet_store,
    ?get_orders_store, ?get_order_store, ?get_users_store, ?get_user_store,
    ?get_inventory_store, ?create_pet_store;
  try done; try (by left).

Lemma acts_on_pets :
  acts_on_ids (fun s => Pet.id <$> pets_db s) assigned_pet_id deleted_pet.
Proof.
  intros now req s. rewrite handle_store.
  destruct req; cbn [route assigned_pet_id deleted_pet]; frame.
  - destruct (create_pet_ok pet now s) as (r & Hr & E).
    assert (PetResponse.id r = py_max (Pet.id <$> pets_db s) 0 + 1) as Hid
      by by injection Hr as <-.
    assert (Pet.id <$> pets_db s ++ [new_pet_of pet now s]
            = (Pet.id <$> pets_db s) ++ [PetResponse.id r]) as Hids
      by by rewrite fmap_app, Hid.
    assert ((route now (POST_pets pet) s).1 = Return (OnePet r)) as Hroute
      by (cbn [route]; unfold to_body; by rewrite E).
    cbn [pets_db]. rewrite Hids.
    destruct (renders (OnePet r)) eqn:Hrender.
    + rewrite (handle_return _ _ _ _ Hroute Hrender).
      split; [done|]. rewrite Hid. apply py_max_next.
    + rewrite (handle_unrendered _ _ _ _ Hroute Hrender).
      right. exists (PetResponse.id r). split; [done|]. rewrite Hid. apply py_max_next.
  - left. by destruct (update_pet_store pet_id pet_update now s) as (pets & -> & Hids).
  - destruct (delete_pet_store pet_id now s) as [->|(i & Hi & ->)]; [by left|].
    right. exists i. simpl. by rewrite list_fmap_delete.
  - left. by destruct (create_order_cases order now s) as [[e ->]| ->].
  - left. by destruct (delete_order_store order_id now s) as [->|(i & _ & ->)].
  - left. by destruct (create_user_cases (UserCreate_of_body user) now s) as [[e ->]| ->].
  - left. by destruct (delete_user_store user_id now s) as [->|(i & _ & ->)].
Qed.

Lemma acts_on_orders :
  acts_on_ids (fun s => Order.id <$> orders_db s) assigned_order_id deleted_order.
Proof.
  intros now req s. rewrite handle_store.
  destruct req; cbn [route assigned_order_id deleted_order]; frame.
  - left. by destruct (update_pet_store pet_id pet_update now s) as (pets & -> & Hids).
  - left. by destruct (delete_pet_store pet_id now s) as [->|(i & _ & ->)].
  - unfold handle. cbn [route]. unfold to_body.
    destruct (create_order_cases order now s) as [[e ->]| ->]; simpl; [by left|].
    rewrite fmap_app. split; [done|apply py_max_next].
  - destruct (delete_order_store order_id now s) as [->|(i & Hi & ->)]; [by left|].
    right. exists i. simpl. by rewrite list_fmap_delete.
  - left. by destruct (create_user_cases (UserCreate_of_body user) now s) as [[e ->]| ->].
  - left. by destruct (delete_user_store user_id now s) as [->|(i & _ & ->)].
Qed.

Lemma acts_on_users :
  acts_on_ids (fun s => User.id <$> users_db s) assigned_user_id deleted_user.
Proof.
  intros now req s. rewrite handle_store.
  destruct req; cbn [route assigned_user_id deleted_user]; frame.
  - left. by destruct (update_pet_store pet_id pet_update now s) as (pets & -> & Hids).
  - left. by destruct (delete_pet_store pet_id now s) as [->|(i & _ & ->)].
  - left. by destruct (create_order_cases order now s) as [[e ->]| ->].
  - left. by destruct (delete_order_store order_id now s) as [->|(i & _ & ->)].
  - unfold handle. cbn [route]. unfold to_body.
    destruct (create_user_cases (UserCreate_of_body user) now s) as [[e ->]| ->]; simpl;
      [by left|].
    rewrite fmap_app. split; [done|apply py_max_next].
  - destruct (delete_user_store user_id now s) as [->|(i & Hi & ->)]; [by left|].
    right. exists i. simpl. by rewrite list_fmap_delete.
Qed.

(** ** Reuse and order of ids *)

Lemma deleted_pet_eq (req : Request) (k : Z) :
  deleted_pet req = Some k -> req = DELETE_pet k.
Proof. destruct req; simpl; congruence. Qed.

Lemma deleted_order_eq (req : Request) (k : Z) :
  deleted_order req = Some k -> req = DELETE_order k.
Proof. destruct req; simpl; congruence. Qed.

Lemma deleted_user_eq (req : Request) (k : Z) :
  deleted_user req = Some k -> req = DELETE_user k.
Proof. destruct req; simpl; congruence. Qed.

Lemma initial_ids_increase (clock : nat -> datetime) : ids_increase (initial_store clock).
Proof. repeat split; simpl; repeat (constructor; try done). Qed.

Lemma run_ids_increase (reqs : list (datetime * Request)) (s : Store) :
  ids_increase s -> ids_increase (run s reqs).2.
Proof.
  intros (Hp & Ho & Hu). repeat split.
  - by apply (run_sorted _ _ _ acts_on_pets).
  - by apply (run_sorted _ _ _ acts_on_orders).
  - by apply (run_sorted _ _ _ acts_on_users).
Qed.

Lemma reachable_ids_increase (s : Store) : reachable s -> ids_increase s.
Proof.
  intros (clock & reqs & <-). apply run_ids_increase, initial_ids_increase.
Qed.

(** Against C5 as stated: from the sample data a pet is created, that pet
    is deleted, and the next creation hands out the same id again. *)
Lemma id_reused_after_delete :
  assigned_ids assigned_pet_id
    (run store0 [(1, POST_pets rex); (2, DELETE_pet 4); (3, POST_pets rex)]).1 = [4; 4]
  /\ ~ NoDup (assigned_ids assigned_pet_id
               (run store0 [(1, POST_pets rex); (2, DELETE_pet 4); (3, POST_pets rex)]).1).
Proof.
  assert (assigned_ids assigned_pet_id
    (run store0 [(1, POST_pets rex); (2, DELETE_pet 4); (3, POST_pets rex)]).1 = [4; 4]) as E
    by (vm_compute; reflexivity).
  split; [exact E|]. rewrite E. intros H. apply NoDup_cons in H as [H _].
  apply H. left.
Qed.

(** C5, amended: a creation hands out an id greater than every id present
    in its collection, so never the id of a record that is there; and when
    two creations of a run hand out the same id, a DELETE of that id on
    the collection lies between them. *)
Theorem id_reused_only_after_delete (s : Store) (reqs : list (datetime * Request))
    (now1 now2 : datetime) (req1 req2 : Request) (k : Z) :
  let s1 := handle now1 req1 s in
  let s2 := (run s1.2 reqs).2 in
  (assigned_pet_id (req2, (handle now2 req2 s2).1) = Some k ->
   (forall x, x ∈ Pet.id <$> pets_db s2 -> x < k)
   /\ (assigned_pet_id (req1, s1.1) = Some k ->
       Exists (fun r => r.2 = DELETE_pet k) reqs))
  /\ (assigned_order_id (req2, (handle now2 req2 s2).1) = Some k ->
      (forall x, x ∈ Order.id <$> orders_db s2 -> x < k)
      /\ (assigned_order_id (req1, s1.1) = Some k ->
          Exists (fun r => r.2 = DELETE_order k) reqs))
  /\ (assigned_user_id (req2, (handle now2 req2 s2).1) = Some k ->
      (forall x, x ∈ User.id <$> users_db s2 -> x < k)
      /\ (assigned_user_id (req1, s1.1) = Some k ->
          Exists (fun r => r.2 = DELETE_user k) reqs)).
Proof.
  intros s1 s2. split; [|split]; intros H2; split.
  - intros x. by apply (step_fresh _ _ _ acts_on_pets now2 req2 s2).
  - intros H1. eapply Exists_impl;
      [exact (reuse_needs_delete _ _ _ acts_on_pets s reqs now1 now2 req1 req2 k H1 H2)|].
    intros r. apply deleted_pet_eq.
  - intros x. by apply (step_fresh _ _ _ acts_on_orders now2 req2 s2).
  - intros H1. eapply Exists_impl;
      [exact (reuse_needs_delete _ _ _ acts_on_orders s reqs now1 now2 req1 req2 k H1 H2)|].
    intros r. apply deleted_order_eq.
  - intros x. by apply (step_fresh _ _ _ acts_on_users now2 req2 s2).
  - intros H1. eapply Exists_impl;
      [exact (reuse_needs_delete _ _ _ acts_on_users s reqs now1 now2 req1 req2 k H1 H2)|].
    intros r. apply deleted_user_eq.
Qed.

Lemma id_reused_only_after_delete_witness :
  (forall x, x ∈ [1; 2; 3] -> x < 4)
  /\ Exists (fun r : datetime * Request => r.2 = DELETE_pet 4) [(2, DELETE_pet 4)].
Proof.
  destruct (id_reused_only_after_delete store0 [(2, DELETE_pet 4)] 1 3
              (POST_pets rex) (POST_pets rex) 4) as [H _].
  destruct (H eq_refl) as [Hfresh Hdel].
  split; [exact Hfresh|exact (Hdel eq_refl)].
Defined.

(** Against C6 as stated: two pets are created, both are deleted, the
    later one first, and the third creation is given a smaller id than the
    second was. *)
Lemma assigned_ids_decrease :
  assigned_ids assigned_pet_id
    (run store0 [(1, POST_pets rex); (2, POST_pets rex); (3, DELETE_pet 5);
                 (4, DELETE_pet 4); (5, POST_pets rex)]).1 = [4; 5; 4]
  /\ ~ Sorted Z.le (assigned_ids assigned_pet_id
         (run store0 [(1, POST_pets rex); (2, POST_pets rex); (3, DELETE_pet 5);
                      (4, DELETE_pet 4); (5, POST_pets rex)]).1).
Proof.
  assert (assigned_ids assigned_pet_id
    (run store0 [(1, POST_pets rex); (2, POST_pets rex); (3, DELETE_pet 5);
                 (4, DELETE_pet 4); (5, POST_pets rex)]).1 = [4; 5; 4]) as E
    by (vm_compute; reflexivity).
  split; [exact E|]. rewrite E. intros H.
  apply Sorted_inv in H as [H _]. apply Sorted_inv in H as [_ H].
  apply HdRel_inv in H. lia.
Qed.

(** C6, amended: in every store reachable from the sample data the ids
    of each collection are pairwise distinct and increase along the
    collection; and in a run from such a store without a DELETE on a
    collection, the ids handed out by the creations in that collection
    increase in the order of the requests. *)
Theorem ids_distinct_and_increasing (s : Store) (reqs : list (datetime * Request)) :
  reachable s ->
  (NoDup (Pet.id <$> pets_db s)
   /\ NoDup (Order.id <$> orders_db s)
   /\ NoDup (User.id <$> users_db s))
  /\ ids_increase s
  /\ (Forall (fun r => forall k, r.2 <> DELETE_pet k) reqs ->
      StronglySorted Z.lt (assigned_ids assigned_pet_id (run s reqs).1))
  /\ (Forall (fun r => forall k, r.2 <> DELETE_order k) reqs ->
      StronglySorted Z.lt (assigned_ids assigned_order_id (run s reqs).1))
  /\ (Forall (fun r => forall k, r.2 <> DELETE_user k) reqs ->
      StronglySorted Z.lt (assigned_ids assigned_user_id (run s reqs).1)).
Proof.
  intros Hs. pose proof (reachable_ids_increase s Hs) as (Hp & Ho & Hu).
  split; [repeat split; by apply sorted_NoDup|]. split; [done|].
  split; [|split]; intros Hall.
  - apply (assigned_increase _ _ _ acts_on_pets); [done|].
    eapply Forall_impl; [exact Hall|]. intros [now req] H. simpl in *.
    destruct (deleted_pet req) as [k|] eqn:E; [|done].
    apply deleted_pet_eq in E. by destruct (H k).
  - apply (assigned_increase _ _ _ acts_on_orders); [done|].
    eapply Forall_impl; [exact Hall|]. intros [now req] H. simpl in *.
    destruct (deleted_order req) as [k|] eqn:E; [|done].
    apply deleted_order_eq in E. by destruct (H k).
  - apply (assigned_increase _ _ _ acts_on_users); [done|].
    eapply Forall_impl; [exact Hall|]. intros [now req] H. simpl in *.
    destruct (deleted_user req) as [k|] eqn:E; [|done].
    apply deleted_user_eq in E. by destruct (H k).
Qed.

Lemma reachable_store0 : reachable store0.
Proof. exists (fun _ => 0), []. reflexivity. Defined.

Lemma ids_distinct_and_increasing_witness :
  NoDup (Pet.id <$> pets_db store0)
  /\ StronglySorted Z.lt
       (assigned_ids assigned_pet_id
          (run store0 [(1, POST_pets rex); (2, PUT_pet 4 None); (3, POST_pets rex)]).1).
Proof.
  destruct (ids_distinct_and_increasing store0
              [(1, POST_pets rex); (2, PUT_pet 4 None); (3, POST_pets rex)]
              reachable_store0) as ((Hnd & _) & _ & Hinc & _).
  split; [exact Hnd|]. apply Hinc.
  repeat constructor; intros k; discriminate.
Defined.


(** * Further properties of the handlers *)

(** ** Listing orders and users *)

Lemma OrderStatus_eqb_eq (a b : OrderStatus.t) : OrderStatus.eqb a b = true <-> a = b.
Proof. destruct a, b; vm_compute; split; congruence. Qed.

Lemma OrderStatus_truthy (a : OrderStatus.t) : OrderStatus.truthy a = true.
Proof. by destruct a. Qed.

Lemma page_ok_spec (limit offset : Z) :
  page_ok limit offset = true <-> paging_in_bounds limit offset.
Proof.
  unfold page_ok, paging_in_bounds. rewrite !andb_true_iff, !Z.leb_le. tauto.
Qed.

Lemma page_ok_false (limit offset : Z) :
  page_ok limit offset = false <-> ~ paging_in_bounds limit offset.
Proof. rewrite <- page_ok_spec. by destruct (page_ok limit offset). Qed.

(** X1: within the paging bounds [get_orders] never fails: it returns
    the projections of the orders of the given status (of all orders
    without one), in the order of the collection, from position [offset]
    on and at most [limit] of them; the store is left as it was. *)
Theorem get_orders_filters_and_slices (s : Store) (status : option OrderStatus.t)
    (limit offset : Z) :
  paging_in_bounds limit offset ->
  exists rs,
    get_orders status limit offset s = (Return rs, s)
    /\ rs = OrderResponse_of <$>
              take (Z.to_nat limit)
                (drop (Z.to_nat offset) (List.filter (order_passes status) (orders_db s)))
    /\ Z.of_nat (length rs) <= limit.
Proof.
  intros Hb. pose proof Hb as [Hl Ho]. apply page_ok_spec in Hb.
  unfold get_orders. rewrite Hb. simpl. eexists. split; [reflexivity|].
  rewrite py_slice_page by lia.
  assert (forall l : list Order.t,
    match status with
    | Some status' =>
      if OrderStatus.truthy status'
      then List.filter (fun order => OrderStatus.eqb (Order.status order) status') l
      else l
    | None => l
    end = List.filter (order_passes status) l) as ->.
  { intros l. destruct status as [st|]; simpl; [|by rewrite filter_true].
    rewrite OrderStatus_truthy. apply filter_ext. intros o. unfold order_passes.
    destruct (OrderStatus.eqb (Order.status o) st) eqn:E.
    - apply OrderStatus_eqb_eq in E. by rewrite bool_decide_eq_true_2.
    - rewrite bool_decide_eq_false_2; [done|]. intros E'%OrderStatus_eqb_eq. congruence. }
  split; [done|]. rewrite length_fmap, length_take. lia.
Qed.

Lemma get_orders_filters_and_slices_witness :
  exists rs,
    get_orders (Some OrderStatus.PLACED) 10 0 (create_order order_1_1 5 store0).2
      = (Return rs, (create_order order_1_1 5 store0).2)
    /\ rs = OrderResponse_of <$>
              take 10 (drop 0 (List.filter (order_passes (Some OrderStatus.PLACED))
                                 (orders_db (create_order order_1_1 5 store0).2)))
    /\ Z.of_nat (length rs) <= 10.
Proof.
  apply (get_orders_filters_and_slices _ (Some OrderStatus.PLACED) 10 0).
  unfold paging_in_bounds. lia.
Defined.

(** X2: within the paging bounds [get_users] never fails: it returns the
    projections of the users from position [offset] on, at most [limit]
    of them, in the order of the collection; the store is left as it
    was. *)
Theorem get_users_slices (s : Store) (limit offset : Z) :
  paging_in_bounds limit offset ->
  exists rs,
    get_users limit offset s = (Return rs, s)
    /\ rs = UserResponse_of <$> take (Z.to_nat limit) (drop (Z.to_nat offset) (users_db s))
    /\ Z.of_nat (length rs) <= limit
    /\ (Z.of_nat (length (users_db s)) <= offset -> rs = []).
Proof.
  intros Hb. pose proof Hb as [Hl Ho]. apply page_ok_spec in Hb.
  unfold get_users. rewrite Hb. simpl. eexists. split; [reflexivity|].
  rewrite py_slice_page by lia. split; [done|].
  split; [rewrite length_fmap, length_take; lia|].
  intros Hlen. rewrite drop_ge by lia. by rewrite take_nil.
Qed.

Lemma get_users_slices_witness :
  exists rs,
    get_users 1 1 store0 = (Return rs, store0)
    /\ rs = UserResponse_of <$> take 1 (drop 1 (users_db store0))
    /\ Z.of_nat (length rs) <= 1
    /\ (Z.of_nat (length (users_db store0)) <= 1 -> rs = []).
Proof.
  apply (get_users_slices store0 1 1). unfold paging_in_bounds. lia.
Defined.

(** X3: the three list routes answer 422 exactly when [limit] is outside
    1..100 or [offset] is negative, and then leave the store as it
    was. *)
Theorem paging_out_of_bounds (s : Store) (pet_status : option PetStatus.t)
    (category : option PetCategory.t) (order_status : option OrderStatus.t)
    (limit offset : Z) :
  ((get_pets pet_status category limit offset s).1 = Raise RequestValidationError
     <-> ~ paging_in_bounds limit offset)
  /\ ((get_orders order_status limit offset s).1 = Raise RequestValidationError
     <-> ~ paging_in_bounds limit offset)
  /\ ((get_users limit offset s).1 = Raise RequestValidationError
     <-> ~ paging_in_bounds limit offset)
  /\ (~ paging_in_bounds limit offset ->
      status_code (GET_pets pet_status category limit offset)
        (handle 0 (GET_pets pet_status category limit offset) s).1 = 422
      /\ status_code (GET_orders order_status limit offset)
           (handle 0 (GET_orders order_status limit offset) s).1 = 422
      /\ status_code (GET_users limit offset)
           (handle 0 (GET_users limit offset) s).1 = 422).
Proof.
  rewrite <- page_ok_false. unfold handle, route, to_body.
  unfold get_pets, get_orders, get_users.
  destruct (page_ok limit offset); simpl.
  - repeat split; try done.
    intros H. unfold respond in H. by destruct (mapM _ _).
  - repeat split; done.
Qed.

Lemma paging_out_of_bounds_witness :
  status_code (GET_pets None None 101 0) (handle 0 (GET_pets None None 101 0) store0).1 = 422
  /\ status_code (GET_orders None 0 0) (handle 0 (GET_orders None 0 0) store0).1 = 422
  /\ status_code (GET_users 5 (-1)) (handle 0 (GET_users 5 (-1)) store0).1 = 422.
Proof.
  destruct (paging_out_of_bounds store0 None None None 101 0) as (_ & _ & _ & H1).
  destruct (paging_out_of_bounds store0 None None None 0 0) as (_ & _ & _ & H2).
  destruct (paging_out_of_bounds store0 None None None 5 (-1)) as (_ & _ & _ & H3).
  unfold paging_in_bounds in *.
  split; [apply H1; lia|]. split; [apply H2; lia|apply H3; lia].
Defined.

(** ** Deleting orders and users *)

(** X4: [delete_order] by an id that no order has is refused with 404
    and changes nothing; by the id of an order of a collection with
    distinct ids it acknowledges with code 200, removes that order and no
    other, leaves pets and users as they were, and [get_order] of the id
    is refused with 404 afterwards. *)
Theorem delete_order_removes_one (s : Store) (order_id : Z) (now : datetime) :
  (order_id ∉ Order.id <$> orders_db s ->
   delete_order order_id now s = (Raise (HTTPException 404 "Order not found"), s))
  /\ (NoDup (Order.id <$> orders_db s) ->
      order_id ∈ Order.id <$> orders_db s ->
      exists ack s',
        delete_order order_id now s = (Return ack, s')
        /\ ApiResponse.code ack = 200
        /\ ApiResponse.timestamp ack = now
        /\ orders_db s' = filter (fun o => Order.id o <> order_id) (orders_db s)
        /\ length (orders_db s) = S (length (orders_db s'))
        /\ pets_db s' = pets_db s
        /\ users_db s' = users_db s
        /\ get_order order_id s' = (Raise (HTTPException 404 "Order not found"), s')).
Proof.
  split.
  - intros H%find_key_None. unfold delete_order. by rewrite H.
  - intros Hnd (i & o & Hf & Hi & Ho)%find_key_elem.
    unfold delete_order. rewrite Hf. eexists _, _. split; [reflexivity|]. simpl.
    assert (delete i (orders_db s) = filter (fun q => Order.id q <> order_id) (orders_db s)) as E.
    { rewrite <- Ho. by apply delete_filter_key. }
    split; [done|]. split; [done|]. split; [done|].
    split; [rewrite length_delete by (by eexists); apply lookup_lt_Some in Hi; lia|].
    split; [done|]. split; [done|].
    unfold get_order. simpl. rewrite E.
    pose proof (filter_key_gone Order.id order_id (orders_db s)) as Hg.
    apply find_key_None in Hg. by rewrite Hg.
Qed.

Lemma delete_order_removes_one_witness :
  delete_order 1 5 store0 = (Raise (HTTPException 404 "Order not found"), store0)
  /\ exists ack s',
       delete_order 1 6 (create_order order_1_1 5 store0).2 = (Return ack, s')
       /\ orders_db s' = []
       /\ get_order 1 s' = (Raise (HTTPException 404 "Order not found"), s').
Proof.
  split.
  - apply (delete_order_removes_one store0 1 5).
    intros H%any_id_elem. discriminate H.
  - destruct (delete_order_removes_one (create_order order_1_1 5 store0).2 1 6) as [_ H].
    destruct H as (ack & s' & Hd & _ & _ & Ho & _ & _ & _ & Hg).
    + apply (bool_decide_unpack _). vm_compute. exact I.
    + apply any_id_elem. reflexivity.
    + exists ack, s'. split; [exact Hd|]. split; [exact Ho|exact Hg].
Defined.

(** X5: [delete_user] by an id that no user has is refused with 404 and
    changes nothing; by the id of a user of a collection with distinct
    ids it acknowledges with code 200, removes that user and no other,
    leaves pets and orders as they were (the orders of that user too),
    and [get_user] of the id is refused with 404 afterwards. *)
Theorem delete_user_removes_one (s : Store) (user_id : Z) (now : datetime) :
  (user_id ∉ User.id <$> users_db s ->
   delete_user user_id now s = (Raise (HTTPException 404 "User not found"), s))
  /\ (NoDup (User.id <$> users_db s) ->
      user_id ∈ User.id <$> users_db s ->
      exists ack s',
        delete_user user_id now s = (Return ack, s')
        /\ ApiResponse.code ack = 200
        /\ ApiResponse.timestamp ack = now
        /\ users_db s' = filter (fun u => User.id u <> user_id) (users_db s)
        /\ length (users_db s) = S (length (users_db s'))
        /\ pets_db s' = pets_db s
        /\ orders_db s' = orders_db s
        /\ get_user user_id s' = (Raise (HTTPException 404 "User not found"), s')).
Proof.
  split.
  - intros H%find_key_None. unfold delete_user. by rewrite H.
  - intros Hnd (i & u & Hf & Hi & Hu)%find_key_elem.
    unfold delete_user. rewrite Hf. eexists _, _. split; [reflexivity|]. simpl.
    assert (delete i (users_db s) = filter (fun q => User.id q <> user_id) (users_db s)) as E.
    { rewrite <- Hu. by apply delete_filter_key. }
    split; [done|]. split; [done|]. split; [done|].
    split; [rewrite length_delete by (by eexists); apply lookup_lt_Some in Hi; lia|].
    split; [done|]. split; [done|].
    unfold get_user. simpl. rewrite E.
    pose proof (filter_key_gone User.id user_id (users_db s)) as Hg.
    apply find_key_None in Hg. by rewrite Hg.
Qed.

Lemma NoDup_store0_users : NoDup (User.id <$> users_db store0).
Proof. apply (bool_decide_unpack _). vm_compute. exact I. Defined.

Lemma delete_user_removes_one_witness :
  delete_user 7 5 store0 = (Raise (HTTPException 404 "User not found"), store0)
  /\ exists ack s',
       delete_user 1 5 store0 = (Return ack, s')
       /\ User.id <$> users_db s' = [2]
       /\ get_user 1 s' = (Raise (HTTPException 404 "User not found"), s').
Proof.
  split.
  - apply (delete_user_removes_one store0 7 5).
    intros H%any_id_elem. discriminate H.
  - destruct (delete_user_removes_one store0 1 5) as [_ H].
    destruct H as (ack & s' & Hd & _ & _ & Hu & _ & _ & _ & Hg).
    + exact NoDup_store0_users.
    + apply any_id_elem. reflexivity.
    + exists ack, s'. split; [exact Hd|]. split; [by rewrite Hu|exact Hg].
Defined.

(** ** Creating, updating, then reading *)

Lemma find_key_snoc {A : Type} (key : A -> Z) (l : list A) (r : A) :
  key r ∉ key <$> l ->
  list_find (fun q => key q = key r) (l ++ [r]) = Some (length l, r).
Proof.
  intros H%find_key_None. rewrite list_find_app_r by done. simpl.
  by rewrite decide_True.
Qed.

Lemma next_id_fresh (ids : list Z) : py_max ids 0 + 1 ∉ ids.
Proof. intros H%(py_max_ge _ 0). lia. Qed.

(** X6: a record that a POST has just created is found by the GET of
    the id the POST returned, with the very projection the POST returned:
    for pets always, for orders and users whenever the creation is
    accepted. *)
Theorem created_record_is_found (s : Store) (now : datetime)
    (pet : PetCreate.t) (order : OrderCreate.t) (user : UserCreate.t) :
  (exists r s',
      create_pet pet now s = (Return r, s')
      /\ get_pet (PetResponse.id r) s' = (Return r, s'))
  /\ (OrderCreate.pet_id order ∈ Pet.id <$> pets_db s ->
      OrderCreate.user_id order ∈ User.id <$> users_db s ->
      exists r s',
        create_order order now s = (Return r, s')
        /\ get_order (OrderResponse.id r) s' = (Return r, s'))
  /\ (UserCreate.username user ∉ User.username <$> users_db s ->
      UserCreate.email user ∉ User.email <$> users_db s ->
      exists r s',
        create_user user now s = (Return r, s')
        /\ get_user (UserResponse.id r) s' = (Return r, s')).
Proof.
  split; [|split].
  - destruct (create_pet_ok pet now s) as (r & Hr & E).
    exists r, (mkStore (pets_db s ++ [new_pet_of pet now s]) (orders_db s) (users_db s)).
    split; [done|]. unfold get_pet. simpl.
    assert (PetResponse.id r = Pet.id (new_pet_of pet now s)) as -> by by injection Hr as <-.
    rewrite find_key_snoc by apply next_id_fresh. by rewrite Hr.
  - intros Hp Hu. eexists _, _. split; [by apply create_order_ok|].
    unfold get_order. simpl.
    change (py_max (Order.id <$> orders_db s) 0 + 1)
      with (Order.id (new_order_of order now s)).
    by rewrite find_key_snoc by apply next_id_fresh.
  - intros Hn He. eexists _, _. split; [by apply create_user_ok|].
    unfold get_user. simpl.
    change (py_max (User.id <$> users_db s) 0 + 1)
      with (User.id (new_user_of user now s)).
    by rewrite find_key_snoc by apply next_id_fresh.
Qed.

Lemma created_record_is_found_witness :
  (exists r s',
      create_order order_1_1 5 store0 = (Return r, s')
      /\ get_order (OrderResponse.id r) s' = (Return r, s'))
  /\ (exists r s',
        create_user newuser 5 store0 = (Return r, s')
        /\ get_user (UserResponse.id r) s' = (Return r, s')).
Proof.
  destruct (created_record_is_found store0 5 rex order_1_1 newuser) as (_ & Ho & Hu).
  split.
  - apply Ho; apply any_id_elem; reflexivity.
  - apply Hu; intros H%any_str_elem; discriminate H.
Defined.

Lemma get_after_update (s : Store) (pet_id : Z) (u : PetUpdate.t) (now : datetime) :
  (get_pet pet_id (update_pet pet_id (Some u) now s).2).1
  = (update_pet pet_id (Some u) now s).1.
Proof.
  unfold update_pet.
  destruct (list_find _ (pets_db s)) as [[i pet]|] eqn:E.
  - rewrite respond_store. unfold get_pet. simpl.
    pose proof E as (Hi & Hk & Hfirst)%list_find_Some.
    assert (list_find (fun q => Pet.id q = pet_id)
              (<[i := set_updated_at (Pet_copy pet u) now]> (pets_db s))
            = Some (i, set_updated_at (Pet_copy pet u) now)) as ->.
    { apply list_find_insert_Some. right. left.
      split; [done|]. split; [done|]. split; [by eapply lookup_lt_Some|].
      split; [done|]. exact Hfirst. }
    by destruct (PetResponse_of _).
  - simpl. unfold get_pet. by rewrite E.
Qed.

(** X7: whatever [update_pet] with a payload answers, a [get_pet] of the
    same id right after answers the same: the updated projection, the 404
    of an unknown id, or the [ValidationError] of a record the update
    stored with a required attribute at null; and the [get_pet] changes
    nothing. *)
Theorem update_pet_then_get (s : Store) (pet_id : Z) (u : PetUpdate.t) (now : datetime) :
  get_pet pet_id (update_pet pet_id (Some u) now s).2
  = ((update_pet pet_id (Some u) now s).1, (update_pet pet_id (Some u) now s).2).
Proof.
  rewrite <- get_after_update.
  pose proof (get_pet_store pet_id (update_pet pet_id (Some u) now s).2) as H.
  destruct (get_pet _ _) as [o s']. simpl in *. by rewrite H.
Qed.

(** X8: [update_pet] for an id that no pet has is refused with 404
    whatever the body; without a body, for an id that a pet has, it fails
    with the [AttributeError] of [None.dict], answered 500; in both cases
    the store is left as it was. *)
Theorem update_pet_without_effect (s : Store) (pet_id : Z)
    (pet_update : option PetUpdate.t) (now : datetime) :
  (pet_id ∉ Pet.id <$> pets_db s ->
   update_pet pet_id pet_update now s = (Raise (HTTPException 404 "Pet not found"), s)
   /\ status_code (PUT_pet pet_id pet_update)
        (handle now (PUT_pet pet_id pet_update) s).1 = 404)
  /\ (pet_id ∈ Pet.id <$> pets_db s ->
      update_pet pet_id None now s = (Raise AttributeError, s)
      /\ status_code (PUT_pet pet_id None) (handle now (PUT_pet pet_id None) s).1 = 500).
Proof.
  split.
  - intros H%find_key_None.
    assert (update_pet pet_id pet_update now s
            = (Raise (HTTPException 404 "Pet not found"), s)) as E
      by (unfold update_pet; by rewrite H).
    split; [done|]. unfold handle, route, to_body. by rewrite E.
  - intros (i & p & Hf & _)%find_key_elem.
    assert (update_pet pet_id None now s = (Raise AttributeError, s)) as E
      by (unfold update_pet; by rewrite Hf).
    split; [done|]. unfold handle, route, to_body. by rewrite E.
Qed.

Lemma update_pet_without_effect_witness :
  update_pet 9 (Some rename_and_reprice) 5 store0
    = (Raise (HTTPException 404 "Pet not found"), store0)
  /\ update_pet 1 None 5 store0 = (Raise AttributeError, store0).
Proof.
  split.
  - apply (update_pet_without_effect store0 9 (Some rename_and_reprice) 5).
    intros H%any_id_elem. discriminate H.
  - apply (update_pet_without_effect store0 1 None 5).
    apply any_id_elem. reflexivity.
Defined.

(** ** What a request leaves alone *)

Lemma to_body_raise {A : Type} (f : A -> Body) (r : Outcome A * Store) (e : Exception) :
  (to_body f r).1 = Raise e -> r.1 = Raise e.
Proof. unfold to_body. destruct (r.1); simpl; congruence. Qed.

Lemma respond_raise {A B : Type} (r : option A) (f : A -> B) (s : Store) (e : Exception) :
  (respond r f s).1 = Raise e -> e = ValidationError.
Proof. destruct r; simpl; congruence. Qed.

Lemma route_refused (s : Store) (now : datetime) (req : Request) (e : Exception) :
  (route now req s).1 = Raise e -> e <> ValidationError -> (route now req s).2 = s.
Proof.
  intros H He. destruct req; cbn [route] in *; apply to_body_raise in H;
    rewrite to_body_store; frame.
  - unfold update_pet in *.
    destruct (list_find _ _) as [[i p]|]; [|done].
    destruct pet_update as [u|]; [|done].
    by apply respond_raise in H.
  - unfold delete_pet in *. by destruct (list_find _ _) as [[i p]|].
  - by destruct (create_order_cases order now s) as [[e' ->]| E]; [|rewrite E in H].
  - unfold delete_order in *. by destruct (list_find _ _) as [[i p]|].
  - by destruct (create_user_cases (UserCreate_of_body user) now s) as [[e' ->]| E];
      [|rewrite E in H].
  - unfold delete_user in *. by destruct (list_find _ _) as [[i p]|].
Qed.

(** An infinite price passes the bound [gt=0] of [PetCreate]: the pet is
    stored, and the answer ends in the [ValueError] of a float that JSON
    cannot carry, a 500. *)
Example infinite_price_is_stored :
  (handle 7 (POST_pets priceless) store0).1 = Raise ValueError
  /\ status_code (POST_pets priceless) (handle 7 (POST_pets priceless) store0).1 = 500
  /\ length (pets_db (handle 7 (POST_pets priceless) store0).2) = 4%nat
  /\ Pet.price <$> last (pets_db (handle 7 (POST_pets priceless) store0).2)
     = Some (Some (S754_infinity false)).
Proof. repeat split; vm_compute; reflexivity. Qed.

(** X9: a request that is refused with an [HTTPException] (404, 400), with
    the 422 of the paging bounds, or that fails on a missing body, leaves
    the store exactly as it was: of all failures only the
    [ValidationError] of a projection and the [ValueError] of a response
    that cannot be rendered can follow a write. *)
Theorem refused_request_changes_nothing (s : Store) (now : datetime) (req : Request)
    (e : Exception) :
  (handle now req s).1 = Raise e ->
  e <> ValidationError ->
  e <> ValueError ->
  (handle now req s).2 = s.
Proof.
  intros H He He'. rewrite handle_store.
  pose proof (handle_cases now req s) as Hc. rewrite H in Hc.
  destruct Hc as [Hr|[-> _]]; [|done]. by eapply route_refused.
Qed.

Lemma refused_request_changes_nothing_witness :
  (handle 5 (POST_orders order_999_1) store0).2 = store0
  /\ (handle 5 (DELETE_user 7) store0).2 = store0.
Proof.
  split.
  - apply (refused_request_changes_nothing store0 5 (POST_orders order_999_1)
             (HTTPException 400 "Pet not found")); [reflexivity|discriminate ..].
  - apply (refused_request_changes_nothing store0 5 (DELETE_user 7)
             (HTTPException 404 "User not found")); [reflexivity|discriminate ..].
Defined.

(** X10: each collection is written by its own routes only: the pets by
    POST, PUT and DELETE on pets, the orders by POST and DELETE on orders,
    the users by POST and DELETE on users.  A GET writes nothing, and
    deleting a pet or a user leaves the orders that refer to it. *)
Theorem collections_are_independent (s : Store) (now : datetime) (req : Request) :
  (writes_pets req = false -> pets_db (handle now req s).2 = pets_db s)
  /\ (writes_orders req = false -> orders_db (handle now req s).2 = orders_db s)
  /\ (writes_users req = false -> users_db (handle now req s).2 = users_db s)
  /\ (is_GET req = true -> (handle now req s).2 = s).
Proof.
  rewrite handle_store.
  destruct req; cbn [route writes_pets writes_orders writes_users is_GET];
    rewrite to_body_store; frame; repeat split; try done.
  all: try by destruct (update_pet_store pet_id pet_update now s) as (pets & -> & _).
  all: try by destruct (delete_pet_store pet_id now s) as [->|(i & _ & ->)].
  all: try by destruct (create_order_cases order now s) as [[e ->]| ->].
  all: try by destruct (delete_order_store order_id now s) as [->|(i & _ & ->)].
  all: try by destruct (create_user_cases (UserCreate_of_body user) now s) as [[e ->]| ->].
  all: try by destruct (delete_user_store user_id now s) as [->|(i & _ & ->)].
Qed.

Lemma collections_are_independent_witness :
  orders_db (handle 6 (DELETE_pet 1) (create_order order_1_1 5 store0).2).2
    = orders_db (create_order order_1_1 5 store0).2
  /\ (handle 6 GET_inventory store0).2 = store0.
Proof.
  split.
  - by apply (collections_are_independent (create_order order_1_1 5 store0).2 6 (DELETE_pet 1)).
  - by apply (collections_are_independent store0 6 GET_inventory).
Defined.

(** ** Conforming stores *)

Lemma conforms_spec (pet : Pet.t) :
  Pet.conforms pet = true <->
  is_Some (Pet.name pet) /\ is_Some (Pet.category pet) /\ is_Some (Pet.status pet)
  /\ is_Some (Pet.tags pet) /\ is_Some (Pet.price pet) /\ is_Some (Pet.photo_urls pet).
Proof.
  unfold Pet.conforms. rewrite !andb_true_iff, !bool_decide_eq_true. tauto.
Qed.

Lemma response_conforms (pet : Pet.t) :
  is_Some (PetResponse_of pet) -> Pet.conforms pet = true.
Proof.
  intros [r H]. apply conforms_spec. unfold PetResponse_of in H.
  destruct pet as [? [] [] [] [] [] ? [] ? ?]; simpl in *; try discriminate H;
    repeat split; by eexists.
Qed.

Lemma response_iff_conforms (pet : Pet.t) :
  is_Some (PetResponse_of pet) <-> Pet.conforms pet = true.
Proof. split; [apply response_conforms|apply conforms_response]. Qed.

Lemma merge_null {A : Type} (old : option A) (f : Field A) :
  is_null f = true -> merge old f = None.
Proof. by destruct f as [|[]]. Qed.




Lemma updated_not_conforms (pet : Pet.t) (u : PetUpdate.t) (now : datetime) :
  nulls_required u = true ->
  Pet.conforms (set_updated_at (Pet_copy pet u) now) = false.
Proof.
  intros H. apply not_true_is_false. rewrite conforms_spec. simpl.
  intros (H1 & H2 & H3 & H4 & H5 & H6). unfold nulls_required in H.
  rewrite !orb_true_iff in H. destruct H as [[[[[H|H]|H]|H]|H]|H].
  - rewrite (merge_null (Pet.name pet) _ H) in H1. by destruct H1.
  - rewrite (merge_null (Pet.category pet) _ H) in H2. by destruct H2.
  - rewrite (merge_null (Pet.status pet) _ H) in H3. by destruct H3.
  - rewrite (merge_null (Pet.tags pet) _ H) in H4. by destruct H4.
  - rewrite (merge_null (Pet.price pet) _ H) in H5. by destruct H5.
  - rewrite (merge_null (Pet.photo_urls pet) _ H) in H6. by destruct H6.
Qed.

(** X11: an update that gives null to an attribute [PetResponse]
    requires (name, category, status, tags, price, photo_urls) is answered
    with the [ValidationError] of the projection, status 500, after the
    record has been written: the pet stored at that position has the null,
    no longer conforms to the [Pet] model, and carries the new
    [updated_at]. *)
Theorem update_pet_null_is_stored (s : Store) (i : nat) (p : Pet.t) (u : PetUpdate.t)
    (now : datetime) :
  NoDup (Pet.id <$> pets_db s) ->
  pets_db s !! i = Some p ->
  nulls_required u = true ->
  (update_pet (Pet.id p) (Some u) now s).1 = Raise ValidationError
  /\ status_code (PUT_pet (Pet.id p) (Some u))
       (handle now (PUT_pet (Pet.id p) (Some u)) s).1 = 500
  /\ exists p',
       pets_db (update_pet (Pet.id p) (Some u) now s).2 !! i = Some p'
       /\ Pet.conforms p' = false
       /\ Pet.updated_at p' = Some now
       /\ (get_pet (Pet.id p) (update_pet (Pet.id p) (Some u) now s).2).1
          = Raise ValidationError.
Proof.
  intros Hnd Hi Hu.
  pose proof (find_key_NoDup Pet.id (pets_db s) i p Hnd Hi) as Hf.
  pose proof (updated_not_conforms p u now Hu) as Hc.
  assert (PetResponse_of (set_updated_at (Pet_copy p u) now) = None) as Hr.
  { apply eq_None_not_Some. intros H%response_conforms. congruence. }
  assert ((update_pet (Pet.id p) (Some u) now s).1 = Raise ValidationError) as E.
  { rewrite (update_pet_found s i p u now Hf), Hr. done. }
  split; [done|]. split; [unfold handle, route, to_body; by rewrite E|].
  exists (set_updated_at (Pet_copy p u) now).
  rewrite get_after_update, E.
  rewrite (update_pet_found s i p u now Hf), respond_store. simpl.
  split; [apply list_lookup_insert_eq; by eapply lookup_lt_Some|done].
Qed.

Lemma update_pet_null_is_stored_witness :
  (update_pet 1 (Some null_status) 9 store0).1 = Raise ValidationError
  /\ exists p',
       pets_db (update_pet 1 (Some null_status) 9 store0).2 !! 0%nat = Some p'
       /\ Pet.conforms p' = false.
Proof.
  destruct (update_pet_null_is_stored store0 0
              (Pet.mk 1 (Some "Buddy") (Some PetCategory.DOG) (Some PetStatus.AVAILABLE)
                 (Some ["friendly"; "house-trained"]) (Some f299_99)
                 (Some "A friendly golden retriever")
                 (Some ["https://example.com/buddy1.jpg"]) 0 None)
              null_status 9 NoDup_store0_pets eq_refl eq_refl)
    as (E & _ & p' & Hi & Hc & _).
  split; [exact E|]. exists p'. split; [exact Hi|exact Hc].
Defined.

(** ** Runs that keep the model *)


Lemma new_pet_conforms (pet : PetCreate.t) (now : datetime) (s : Store) :
  Pet.conforms (new_pet_of pet now s) = true.
Proof. done. Qed.













(** ** Sample data, once *)

(** X13: [initialize_sample_data] fills the pets only when there are
    none and the users only when there are none, never touches the
    orders, and a second call changes nothing, whatever the clock. *)
Theorem initialize_sample_data_once (clock clock' : nat -> datetime) (s : Store) :
  initialize_sample_data clock' (initialize_sample_data clock s)
    = initialize_sample_data clock s
  /\ (pets_db s <> [] -> pets_db (initialize_sample_data clock s) = pets_db s)
  /\ (users_db s <> [] -> users_db (initialize_sample_data clock s) = users_db s)
  /\ orders_db (initialize_sample_data clock s) = orders_db s
  /\ pets_db (initialize_sample_data clock s) <> []
  /\ users_db (initialize_sample_data clock s) <> [].
Proof. destruct s as [[|p ps] os [|u us]]; repeat split; done. Qed.

Lemma initialize_sample_data_once_witness :
  pets_db (initialize_sample_data (fun _ => 7) (delete_pet 1 5 store0).2)
    = pets_db (delete_pet 1 5 store0).2.
Proof.
  apply (initialize_sample_data_once (fun _ => 7) (fun _ => 7) (delete_pet 1 5 store0).2).
  discriminate.
Defined.

(** ** Unique usernames and emails *)

Lemma NoDup_delete {A : Type} (l : list A) (i : nat) : NoDup l -> NoDup (delete i l).
Proof. intros H. eapply sublist_NoDup; [exact H|apply sublist_delete]. Qed.

Lemma NoDup_snoc {A : Type} (l : list A) (x : A) : NoDup l -> x ∉ l -> NoDup (l ++ [x]).
Proof.
  intros Hl Hx. apply NoDup_app. split; [done|]. split; [|apply NoDup_singleton].
  intros y Hy ->%list_elem_of_singleton. done.
Qed.

Lemma NoDup_delete_notin {A : Type} (l : list A) (i : nat) (x : A) :
  NoDup l -> l !! i = Some x -> x ∉ delete i l.
Proof.
  intros Hnd Hi Hin. apply list_elem_of_lookup in Hin as [j Hj].
  destruct (decide (j < i)%nat) as [Hlt|Hge].
  - rewrite list_lookup_delete_lt in Hj by done.
    pose proof (NoDup_lookup l i j x Hnd Hi Hj). lia.
  - rewrite list_lookup_delete_ge in Hj by lia.
    pose proof (NoDup_lookup l i (S j) x Hnd Hi Hj). lia.
Qed.

(** What a request does to the users: nothing, or it appends a user
    whose username and email are new, or it removes one. *)
Lemma users_step (now : datetime) (req : Request) (s : Store) :
  users_db (handle now req s).2 = users_db s
  \/ (exists u,
        users_db (handle now req s).2 = users_db s ++ [u]
        /\ (User.username u ∉ User.username <$> users_db s)
        /\ (User.email u ∉ User.email <$> users_db s))
  \/ (exists i, users_db (handle now req s).2 = delete i (users_db s)).
Proof.
  rewrite handle_store.
  destruct req; cbn [route]; rewrite to_body_store; frame; try (by left).
  - left. by destruct (update_pet_store pet_id pet_update now s) as (pets & -> & _).
  - left. by destruct (delete_pet_store pet_id now s) as [->|(i & _ & ->)].
  - left. by destruct (create_order_cases order now s) as [[e ->]| ->].
  - left. by destruct (delete_order_store order_id now s) as [->|(i & _ & ->)].
  - set (user' := UserCreate_of_body user).
    destruct (decide (UserCreate.username user' ∈ User.username <$> users_db s)) as [Hn|Hn];
      [left; by rewrite create_user_dup_username|].
    destruct (decide (UserCreate.email user' ∈ User.email <$> users_db s)) as [He|He];
      [left; by rewrite create_user_dup_email|].
    right. left. rewrite create_user_ok by done. by eexists.
  - destruct (delete_user_store user_id now s) as [->|(i & _ & ->)]; [by left|].
    right. right. by exists i.
Qed.

Lemma step_credentials_unique (now : datetime) (req : Request) (s : Store) :
  credentials_unique s -> credentials_unique (handle now req s).2.
Proof.
  intros [Hn He]. unfold credentials_unique.
  destruct (users_step now req s) as [->|[(u & -> & Hun & Hue)|(i & ->)]]; [done| |].
  - rewrite !fmap_app. simpl. split; by apply NoDup_snoc.
  - rewrite !list_fmap_delete. split; by apply NoDup_delete.
Qed.

Lemma run_credentials_unique (reqs : list (datetime * Request)) (s : Store) :
  credentials_unique s -> credentials_unique (run s reqs).2.
Proof.
  revert s. induction reqs as [|[now req] reqs IH]; intros s Hs; [done|].
  simpl. apply IH. by apply step_credentials_unique.
Qed.

Lemma initial_credentials_unique (clock : nat -> datetime) :
  credentials_unique (initial_store clock).
Proof. split; apply (bool_decide_unpack _); vm_compute; exact I. Qed.

(** X14: no run breaks the uniqueness of usernames and of emails, and
    in every store reachable from the sample data no two users share a
    username and no two share an email. *)
Theorem usernames_and_emails_stay_unique (s : Store) (reqs : list (datetime * Request)) :
  (credentials_unique s -> credentials_unique (run s reqs).2)
  /\ (reachable s -> credentials_unique s).
Proof.
  split; [apply run_credentials_unique|].
  intros (clock & reqs' & <-). apply run_credentials_unique, initial_credentials_unique.
Qed.

Lemma usernames_and_emails_stay_unique_witness :
  credentials_unique
    (run store0 [(1, POST_users newuser); (2, POST_users newuser); (3, DELETE_user 1)]).2
  /\ credentials_unique store0.
Proof.
  split.
  - apply (usernames_and_emails_stay_unique store0
             [(1, POST_users newuser); (2, POST_users newuser); (3, DELETE_user 1)]).
    split; apply (bool_decide_unpack _); vm_compute; exact I.
  - apply (usernames_and_emails_stay_unique store0 []). exact reachable_store0.
Defined.

(** ** Deleting, then creating *)

Lemma delete_pet_filter (s : Store) (pet_id : Z) (now : datetime) :
  NoDup (Pet.id <$> pets_db s) ->
  (delete_pet pet_id now s).2 =
    mkStore (filter (fun q => Pet.id q <> pet_id) (pets_db s)) (orders_db s) (users_db s).
Proof.
  intros Hnd. unfold delete_pet.
  destruct (list_find _ _) as [[i p]|] eqn:E; simpl.
  - apply list_find_Some in E as (Hi & <- & _). f_equal. by apply delete_filter_key.
  - apply find_key_None in E. rewrite filter_key_all by done. by destruct s.
Qed.

Lemma delete_user_filter (s : Store) (user_id : Z) (now : datetime) :
  NoDup (User.id <$> users_db s) ->
  (delete_user user_id now s).2 =
    mkStore (pets_db s) (orders_db s) (filter (fun q => User.id q <> user_id) (users_db s)).
Proof.
  intros Hnd. unfold delete_user.
  destruct (list_find _ _) as [[i p]|] eqn:E; simpl.
  - apply list_find_Some in E as (Hi & <- & _). f_equal. by apply delete_filter_key.
  - apply find_key_None in E. rewrite filter_key_all by done. by destruct s.
Qed.

(** X15: references are checked against the collections as they are
    now: once a pet has been deleted, an order for its id is refused with
    "Pet not found", and once a user has been deleted, an order for that
    user and an existing pet is refused with "User not found" (ids being
    distinct in the collection deleted from). *)
Theorem deleted_reference_is_refused (s : Store) (k : Z) (order : OrderCreate.t)
    (now now' : datetime) :
  (NoDup (Pet.id <$> pets_db s) ->
   OrderCreate.pet_id order = k ->
   create_order order now' (delete_pet k now s).2
     = (Raise (HTTPException 400 "Pet not found"), (delete_pet k now s).2))
  /\ (NoDup (User.id <$> users_db s) ->
      OrderCreate.user_id order = k ->
      OrderCreate.pet_id order ∈ Pet.id <$> pets_db s ->
      create_order order now' (delete_user k now s).2
        = (Raise (HTTPException 400 "User not found"), (delete_user k now s).2)).
Proof.
  split.
  - intros Hnd Hk. apply create_order_no_pet.
    rewrite delete_pet_filter by done. simpl. rewrite Hk. apply filter_key_gone.
  - intros Hnd Hk Hp. apply create_order_no_user.
    + by rewrite delete_user_filter.
    + rewrite delete_user_filter by done. simpl. rewrite Hk. apply filter_key_gone.
Qed.

Lemma deleted_reference_is_refused_witness :
  create_order order_1_1 6 (delete_pet 1 5 store0).2
    = (Raise (HTTPException 400 "Pet not found"), (delete_pet 1 5 store0).2)
  /\ create_order order_1_1 6 (delete_user 1 5 store0).2
    = (Raise (HTTPException 400 "User not found"), (delete_user 1 5 store0).2).
Proof.
  destruct (deleted_reference_is_refused store0 1 order_1_1 5 6) as [Hp Hu].
  split.
  - apply Hp; [exact NoDup_store0_pets|reflexivity].
  - apply Hu; [exact NoDup_store0_users|reflexivity|apply any_id_elem; reflexivity].
Defined.

(** X16: deleting a user frees the username and the email: in a store
    where ids, usernames and emails are each distinct, a user created
    right after the deletion with the username and the email of the
    deleted user is accepted. *)
Theorem deleted_user_frees_credentials (s : Store) (i : nat) (u : User.t)
    (user : UserCreate.t) (now now' : datetime) :
  NoDup (User.id <$> users_db s) ->
  credentials_unique s ->
  users_db s !! i = Some u ->
  UserCreate.username user = User.username u ->
  UserCreate.email user = User.email u ->
  exists r s',
    create_user user now' (delete_user (User.id u) now s).2 = (Return r, s')
    /\ UserResponse.username r = User.username u
    /\ UserResponse.email r = User.email u
    /\ create_user user now' s = (Raise (HTTPException 400 "Username already exists"), s).
Proof.
  intros Hnd [Hun Hue] Hi Hn He.
  pose proof (find_key_NoDup User.id (users_db s) i u Hnd Hi) as Hf.
  assert ((delete_user (User.id u) now s).2
          = mkStore (pets_db s) (orders_db s) (delete i (users_db s))) as E
    by (unfold delete_user; by rewrite Hf).
  eexists _, _. split; [|split; [|split]].
  - apply create_user_ok; rewrite E; simpl; rewrite list_fmap_delete.
    + rewrite Hn. apply NoDup_delete_notin; [done|]. by rewrite list_lookup_fmap, Hi.
    + rewrite He. apply NoDup_delete_notin; [done|]. by rewrite list_lookup_fmap, Hi.
  - done.
  - done.
  - apply create_user_dup_username. rewrite Hn. apply list_elem_of_fmap.
    exists u. split; [done|]. by eapply list_elem_of_lookup_2.
Qed.

Lemma deleted_user_frees_credentials_witness :
  exists r s',
    create_user johndoe_again 6 (delete_user 1 5 store0).2 = (Return r, s')
    /\ UserResponse.username r = "johndoe"
    /\ UserResponse.email r = "john@example.com"
    /\ create_user johndoe_again 6 store0
       = (Raise (HTTPException 400 "Username already exists"), store0).
Proof.
  apply (deleted_user_frees_credentials store0 0
           (User.mk 1 "johndoe" "John" "Doe" "john@example.com" (Some "+1234567890")
              "password123" 1 0 None)
           johndoe_again 5 6).
  - exact NoDup_store0_users.
  - split; apply (bool_decide_unpack _); vm_compute; exact I.
  - reflexivity.
  - reflexivity.
  - reflexivity.
Defined.

(** ** Inventory after a creation *)

Lemma tally_all_app (l1 l2 : list Pet.t) (m : gmap string Z) :
  tally_all (l1 ++ l2) m =
    match tally_all l1 m with
    | Return m' => tally_all l2 m'
    | Raise e => Raise e
    end.
Proof.
  revert m. induction l1 as [|pet l1 IH]; intros m; simpl; [done|].
  by destruct (tally m pet).
Qed.

(** X17: when the inventory of a store is [m], the inventory right
    after a pet creation is [m] with the entry of the new pet's status
    raised by one (set to 1 when the status had no entry), every other
    entry as it was. *)
Theorem inventory_after_create (s : Store) (pet : PetCreate.t) (now : datetime)
    (m : gmap string Z) :
  get_inventory s = (Return m, s) ->
  exists m',
    get_inventory (create_pet pet now s).2 = (Return m', (create_pet pet now s).2)
    /\ m' !! PetStatus.value (PetCreate.status pet)
       = Some (default 0 (m !! PetStatus.value (PetCreate.status pet)) + 1)
    /\ (forall k, k <> PetStatus.value (PetCreate.status pet) -> m' !! k = m !! k)
    /\ sum_values m' = sum_values m + 1.
Proof.
  unfold get_inventory. intros [= Hm].
  exists (<[PetStatus.value (PetCreate.status pet)
            := default 0 (m !! PetStatus.value (PetCreate.status pet)) + 1]> m).
  split; [|split; [|split]].
  - rewrite create_pet_store. simpl. rewrite tally_all_app, Hm. simpl.
    by rewrite (tally_eq m _ (PetCreate.status pet)).
  - apply lookup_insert_eq.
  - intros k Hk. by apply lookup_insert_ne.
  - rewrite sum_values_insert. lia.
Qed.

Lemma inventory_after_create_witness :
  exists m',
    get_inventory (create_pet rex 5 store0).2 = (Return m', (create_pet rex 5 store0).2)
    /\ m' !! "pending" = Some 1
    /\ m' !! "available" = Some 2.
Proof.
  destruct (inventory_after_create store0 rex 5
              (<["sold" := 1]> (<["available" := 2]> ∅)))
    as (m' & Hm' & Hp & Ho & _); [vm_compute; reflexivity|].
  exists m'. split; [exact Hm'|]. split.
  - etrans; [exact Hp|]. vm_compute. reflexivity.
  - etrans; [apply Ho; discriminate|]. vm_compute. reflexivity.
Defined.

(** ** Reading by id, and the 404 *)

(** The loop of [get_inventory] fails on a null status only: the
    [KeyError] of a missing entry cannot happen. *)
Lemma tally_all_raise (pets : list Pet.t) (m : gmap string Z) (e : Exception) :
  tally_all pets m = Raise e -> e = AttributeError.
Proof.
  revert m. induction pets as [|pet pets IH]; intros m; simpl; [done|].
  destruct (Pet.status pet) as [st|] eqn:E.
  - rewrite (tally_eq m pet st E). apply IH.
  - rewrite tally_null by done. congruence.
Qed.

Ltac code_or_not :=
  simpl; split; intros ?; first [done | discriminate].

Lemma handle_404 (now : datetime) (req : Request) (s : Store) :
  status_code req (handle now req s).1 = 404 <-> status_code req (route now req s).1 = 404.
Proof.
  unfold handle. simpl. destruct (route now req s) as [[body|e] s']; simpl; [|tauto].
  destruct (renders body); simpl; [tauto|]. destruct req; simpl; split; discriminate.
Qed.

(** X18: a request is answered 404 exactly when it names, in its path,
    an id that its collection does not hold: GET, PUT or DELETE on a pet,
    GET or DELETE on an order or a user.  No other route and no other
    situation gives a 404; a missing reference in an order is a 400. *)
Theorem not_found_exactly (s : Store) (now : datetime) (req : Request) :
  status_code req (handle now req s).1 = 404 <-> names_missing_id req s.
Proof.
  rewrite handle_404.
  destruct req; cbn [route names_missing_id]; unfold to_body.
  - code_or_not.
  - code_or_not.
  - unfold get_pets, respond. destruct (negb _); [code_or_not|].
    destruct (mapM _ _); code_or_not.
  - rewrite <- find_key_None. unfold get_pet, respond.
    destruct (list_find _ _) as [[i p]|]; [destruct (PetResponse_of p)|]; code_or_not.
  - destruct (create_pet_ok pet now s) as (r & _ & ->). code_or_not.
  - rewrite <- find_key_None. unfold update_pet, respond.
    destruct (list_find _ _) as [[i p]|]; [|code_or_not].
    destruct pet_update as [u|]; [destruct (PetResponse_of _)|]; code_or_not.
  - rewrite <- find_key_None. unfold delete_pet.
    destruct (list_find _ _) as [[i p]|]; code_or_not.
  - unfold get_orders. destruct (negb _); code_or_not.
  - rewrite <- find_key_None. unfold get_order.
    destruct (list_find _ _) as [[i p]|]; code_or_not.
  - destruct (decide (OrderCreate.pet_id order ∈ Pet.id <$> pets_db s)) as [Hp|Hp];
      [|rewrite create_order_no_pet by done; code_or_not].
    destruct (decide (OrderCreate.user_id order ∈ User.id <$> users_db s)) as [Hu|Hu];
      [rewrite create_order_ok by done|rewrite create_order_no_user by done];
      code_or_not.
  - rewrite <- find_key_None. unfold delete_order.
    destruct (list_find _ _) as [[i p]|]; code_or_not.
  - unfold get_users. destruct (negb _); code_or_not.
  - rewrite <- find_key_None. unfold get_user.
    destruct (list_find _ _) as [[i p]|]; code_or_not.
  - set (user' := UserCreate_of_body user).
    destruct (decide (UserCreate.username user' ∈ User.username <$> users_db s)) as [Hn|Hn];
      [rewrite create_user_dup_username by done; code_or_not|].
    destruct (decide (UserCreate.email user' ∈ User.email <$> users_db s)) as [He|He];
      [rewrite create_user_dup_email by done|rewrite create_user_ok by done];
      code_or_not.
  - rewrite <- find_key_None. unfold delete_user.
    destruct (list_find _ _) as [[i p]|]; code_or_not.
  - unfold get_inventory. simpl.
    destruct (tally_all (pets_db s) ∅) as [m|e] eqn:E; [code_or_not|].
    apply tally_all_raise in E as ->. code_or_not.
Qed.

(** X19: [get_order] and [get_user] of the id of a record of a
    collection with distinct ids return the projection of that record,
    and [get_pet] does so for a pet that conforms to the [Pet] model; the
    store is left as it was. *)
Theorem get_by_id_returns_the_record (s : Store) (i : nat) :
  (forall pet,
      NoDup (Pet.id <$> pets_db s) -> pets_db s !! i = Some pet ->
      Pet.conforms pet = true ->
      exists r, PetResponse_of pet = Some r /\ get_pet (Pet.id pet) s = (Return r, s))
  /\ (forall order,
        NoDup (Order.id <$> orders_db s) -> orders_db s !! i = Some order ->
        get_order (Order.id order) s = (Return (OrderResponse_of order), s))
  /\ (forall user,
        NoDup (User.id <$> users_db s) -> users_db s !! i = Some user ->
        get_user (User.id user) s = (Return (UserResponse_of user), s)).
Proof.
  split; [|split].
  - intros pet Hnd Hi Hc. destruct (conforms_response pet Hc) as [r Hr].
    exists r. split; [done|]. unfold get_pet.
    by rewrite (find_key_NoDup Pet.id _ i pet Hnd Hi), Hr.
  - intros order Hnd Hi. unfold get_order.
    by rewrite (find_key_NoDup Order.id _ i order Hnd Hi).
  - intros user Hnd Hi. unfold get_user.
    by rewrite (find_key_NoDup User.id _ i user Hnd Hi).
Qed.

Lemma get_by_id_returns_the_record_witness :
  get_user 2 store0
  = (Return (UserResponse.mk 2 "janedoe" "Jane" "Doe" "jane@example.com"
               (Some "+1234567891") 1 0 None), store0).
Proof.
  destruct (get_by_id_returns_the_record store0 1) as (_ & _ & H).
  exact (H (User.mk 2 "janedoe" "Jane" "Doe" "jane@example.com" (Some "+1234567891")
              "password123" 1 0 None) NoDup_store0_users eq_refl).
Defined.

(** ** Settings *)

Lemma get_settings_cached {Env : Type} (Settings_init : Env -> option Settings.t)
    (envs : list Env) (v : Settings.t) :
  get_settings_calls Settings_init envs (Some v) = replicate (length envs) (Return v).
Proof. induction envs as [|env envs IH]; simpl; [done|by rewrite IH]. Qed.

(** X20: [get_settings] builds the settings once, at the first call at
    which [Settings()] succeeds: the calls before it, at which
    [Settings()] raises, raise [ValidationError] and leave [_settings]
    unset, so that the next call builds again; that call and every later
    one return what [Settings()] built then, whatever the environment
    has become since. *)
Theorem get_settings_builds_once {Env : Type} (Settings_init : Env -> option Settings.t)
    (failing : list Env) (env : Env) (envs : list Env) (v : Settings.t) :
  Forall (fun e => Settings_init e = None) failing ->
  Settings_init env = Some v ->
  get_settings_calls Settings_init (failing ++ env :: envs) None
  = replicate (length failing) (Raise ValidationError)
    ++ replicate (S (length envs)) (Return v).
Proof.
  intros Hf Hv. induction Hf as [|e failing He _ IH];
    cbn [app get_settings_calls get_settings length replicate].
  - rewrite Hv. cbn [fst snd]. by rewrite get_settings_cached.
  - rewrite He. cbn [fst snd]. by rewrite IH.
Qed.

Lemma get_settings_builds_once_witness :
  get_settings_calls port_env [None; Some 8000; Some 9000; None] None
  = [Raise ValidationError; Return Settings_defaults; Return Settings_defaults;
     Return Settings_defaults].
Proof.
  apply (get_settings_builds_once port_env [None] (Some 8000) [Some 9000; None]
           Settings_defaults).
  - repeat constructor.
  - reflexivity.
Defined.

(** ** When the inventory fails *)

(** X21: [get_inventory] returns a map exactly when every pet holds a
    status; otherwise it fails with the [AttributeError] of
    [pet.status.value], and never with a [KeyError].  Over no pets it
    returns the empty map.  The store is left as it was either way. *)
Theorem get_inventory_fails_on_null_only (s : Store) :
  ((exists m, get_inventory s = (Return m, s)) <->
   Forall (fun pet => is_Some (Pet.status pet)) (pets_db s))
  /\ (get_inventory s = (Raise AttributeError, s) <->
      Exists (fun pet => Pet.status pet = None) (pets_db s))
  /\ (pets_db s = [] -> get_inventory s = (Return ∅, s)).
Proof.
  assert (Exists (fun pet => Pet.status pet = None) (pets_db s) ->
          get_inventory s = (Raise AttributeError, s)) as Hnull.
  { intros H. unfold get_inventory. by rewrite tally_all_null. }
  assert (Forall (fun pet => is_Some (Pet.status pet)) (pets_db s) ->
          exists m, get_inventory s = (Return m, s)) as Hall.
  { intros H. unfold get_inventory.
    destruct (tally_all_tallies (pets_db s) [] ∅ tallies_empty H) as (m & -> & _).
    by exists m. }
  assert (Forall (fun pet => is_Some (Pet.status pet)) (pets_db s) \/
          Exists (fun pet => Pet.status pet = None) (pets_db s)) as Hcases.
  { destruct (Forall_Exists_dec (fun pet => is_Some (Pet.status pet))
                (fun pet => Pet.status pet = None)
                (fun pet => match Pet.status pet as o
                              return {is_Some o} + {o = None} with
                            | Some st => left (ex_intro _ st eq_refl)
                            | None => right eq_refl
                            end) (pets_db s)); [by left|by right]. }
  split; [|split].
  - split; [|done]. intros [m Hm].
    destruct Hcases as [?|He]; [done|]. rewrite (Hnull He) in Hm. discriminate.
  - split; [|done]. intros Hr.
    destruct Hcases as [Ha|?]; [|done]. destruct (Hall Ha) as [m Hm]. congruence.
  - intros E. unfold get_inventory. by rewrite E.
Qed.

Lemma get_inventory_fails_on_null_only_witness :
  get_inventory (mkStore [] [] []) = (Return ∅, mkStore [] [] []).
Proof.
  destruct (get_inventory_fails_on_null_only (mkStore [] [] [])) as (_ & _ & H).
  exact (H eq_refl).
Defined.

(** ** Two updates in a row *)

Lemma merge_then {A : Type} (old : option A) (f1 f2 : Field A) :
  merge (merge old f1) f2 = merge old (Field_then f1 f2).
Proof. by destruct f2. Qed.

Lemma copy_then (pet : Pet.t) (u1 u2 : PetUpdate.t) (t1 t2 : datetime) :
  set_updated_at (Pet_copy (set_updated_at (Pet_copy pet u1) t1) u2) t2
  = set_updated_at (Pet_copy pet (PetUpdate_then u1 u2)) t2.
Proof.
  unfold set_updated_at, Pet_copy. simpl. by rewrite !merge_then.
Qed.

(** X22: two updates of the same pet in a row leave the store, and get
    from the second the answer, that the single update with the combined
    payload would at the time of the second: attribute by attribute, the
    later payload where it gives the attribute, the earlier one where it
    does not. *)
Theorem update_pet_twice (s : Store) (pet_id : Z) (u1 u2 : PetUpdate.t)
    (t1 t2 : datetime) :
  update_pet pet_id (Some u2) t2 (update_pet pet_id (Some u1) t1 s).2
  = update_pet pet_id (Some (PetUpdate_then u1 u2)) t2 s.
Proof.
  unfold update_pet at 2 3.
  destruct (list_find _ (pets_db s)) as [[i pet]|] eqn:E.
  - rewrite respond_store. unfold update_pet. simpl.
    pose proof E as (Hi & Hk & Hfirst)%list_find_Some.
    assert (list_find (fun q => Pet.id q = pet_id)
              (<[i := set_updated_at (Pet_copy pet u1) t1]> (pets_db s))
            = Some (i, set_updated_at (Pet_copy pet u1) t1)) as ->.
    { apply list_find_insert_Some. right. left.
      split; [done|]. split; [done|]. split; [by eapply lookup_lt_Some|].
      split; [done|]. exact Hfirst. }
    by rewrite list_insert_insert_eq, copy_then.
  - simpl. unfold update_pet. by rewrite E.
Qed.

(** ** The same request twice *)

Lemma delete_order_filter (s : Store) (order_id : Z) (now : datetime) :
  NoDup (Order.id <$> orders_db s) ->
  (delete_order order_id now s).2 =
    mkStore (pets_db s) (filter (fun q => Order.id q <> order_id) (orders_db s)) (users_db s).
Proof.
  intros Hnd. unfold delete_order.
  destruct (list_find _ _) as [[i p]|] eqn:E; simpl.
  - apply list_find_Some in E as (Hi & <- & _). f_equal. by apply delete_filter_key.
  - apply find_key_None in E. rewrite filter_key_all by done. by destruct s.
Qed.

(** X23: over collections with distinct ids a DELETE repeated right
    away is refused with 404 and changes nothing, whether or not the
    first one found the record. *)
Theorem delete_twice_is_not_found (s : Store) (k : Z) (t1 t2 : datetime) :
  (NoDup (Pet.id <$> pets_db s) ->
   delete_pet k t2 (delete_pet k t1 s).2
   = (Raise (HTTPException 404 "Pet not found"), (delete_pet k t1 s).2))
  /\ (NoDup (Order.id <$> orders_db s) ->
      delete_order k t2 (delete_order k t1 s).2
      = (Raise (HTTPException 404 "Order not found"), (delete_order k t1 s).2))
  /\ (NoDup (User.id <$> users_db s) ->
      delete_user k t2 (delete_user k t1 s).2
      = (Raise (HTTPException 404 "User not found"), (delete_user k t1 s).2)).
Proof.
  split; [|split]; intros Hnd.
  - rewrite delete_pet_filter by done. unfold delete_pet at 1. simpl.
    pose proof (filter_key_gone Pet.id k (pets_db s)) as H%find_key_None. by rewrite H.
  - rewrite delete_order_filter by done. unfold delete_order at 1. simpl.
    pose proof (filter_key_gone Order.id k (orders_db s)) as H%find_key_None. by rewrite H.
  - rewrite delete_user_filter by done. unfold delete_user at 1. simpl.
    pose proof (filter_key_gone User.id k (users_db s)) as H%find_key_None. by rewrite H.
Qed.

Lemma delete_twice_is_not_found_witness :
  delete_pet 2 6 (delete_pet 2 5 store0).2
  = (Raise (HTTPException 404 "Pet not found"), (delete_pet 2 5 store0).2)
  /\ delete_user 2 6 (delete_user 2 5 store0).2
  = (Raise (HTTPException 404 "User not found"), (delete_user 2 5 store0).2).
Proof.
  destruct (delete_twice_is_not_found store0 2 5 6) as (Hp & _ & Hu).
  split; [exact (Hp NoDup_store0_pets)|exact (Hu NoDup_store0_users)].
Defined.

(** X24: the same user sent twice in a row is refused the second time
    with a 400 and nothing is added then: with "Username already exists"
    when the first was accepted, and with the refusal of the first when
    the first was refused. *)
Theorem create_user_twice (s : Store) (user : UserCreate.t) (t1 t2 : datetime) :
  (exists detail,
      create_user user t2 (create_user user t1 s).2
      = (Raise (HTTPException 400 detail), (create_user user t1 s).2))
  /\ (forall r, (create_user user t1 s).1 = Return r ->
        create_user user t2 (create_user user t1 s).2
        = (Raise (HTTPException 400 "Username already exists"), (create_user user t1 s).2))
  /\ (forall e, (create_user user t1 s).1 = Raise e ->
        create_user user t2 (create_user user t1 s).2 = (Raise e, s)).
Proof.
  destruct (decide (UserCreate.username user ∈ User.username <$> users_db s)) as [Hn|Hn].
  { rewrite (create_user_dup_username user t1 s Hn). simpl.
    rewrite (create_user_dup_username user t2 s Hn).
    split; [by eexists|]. split; [done|]. by intros e [= <-]. }
  destruct (decide (UserCreate.email user ∈ User.email <$> users_db s)) as [He|He].
  { rewrite (create_user_dup_email user t1 s Hn He). simpl.
    rewrite (create_user_dup_email user t2 s Hn He).
    split; [by eexists|]. split; [done|]. by intros e [= <-]. }
  rewrite (create_user_ok user t1 s Hn He). simpl.
  assert (create_user user t2
            (mkStore (pets_db s) (orders_db s) (users_db s ++ [new_user_of user t1 s]))
          = (Raise (HTTPException 400 "Username already exists"),
             mkStore (pets_db s) (orders_db s) (users_db s ++ [new_user_of user t1 s]))) as E.
  { apply create_user_dup_username. simpl. rewrite fmap_app. apply elem_of_app.
    right. left. }
  split; [by eexists|]. split; [done|]. done.
Qed.

Lemma create_user_twice_witness :
  create_user newuser 6 (create_user newuser 5 store0).2
  = (Raise (HTTPException 400 "Username already exists"), (create_user newuser 5 store0).2).
Proof.
  destruct (create_user_twice store0 newuser 5 6) as (_ & H & _).
  exact (H _ eq_refl).
Defined.
